(** * Paginator (src/services/pagination/Paginator.js)

    A shallow embedding of the [Paginator] class of the lesgo framework and
    the properties of its page window, its over-fetch and its per-instance
    cache.

    Modelling conventions.
    - A JavaScript number is [NaN], an infinity, the negative zero or a
      finite value held as a canonical rational ([Qc]); [Fin 0] is the
      positive zero.  Special values and signs of zero follow IEEE 754.  A
      sum, difference or product of finite values is the exact rational: the
      source rounds it to binary64, and the two agree whenever operands and
      result are integers of magnitude at most 2^53, as well as for [x - x]
      and [1 * x].  Every statement below that gives the value of such a
      result keeps to these cases; comparisons are exact in both.
    - The text of a number in a template literal is defined for [NaN], the
      infinities, the zeros and the integers of magnitude at most 2^53,
      which print in plain decimal digits; the text of any other finite
      number (the shortest digits that read back as the same binary64
      value, with an exponent from 1e21 on) is a parameter.
    - [db.select] is an external collaborator.  It is a parameter of the
      development: a transition function on an abstract data-source state
      that either fails with an opaque error or yields the rows.  Every
      invocation is recorded in a call log so that executions can be counted.
    - An [async] method is a computation over the pair (instance, world) that
      returns a value or throws.  Calls are awaited one after the other, as
      in [await p.count(); await p.items()]; overlapping un-awaited calls
      are outside the model.
    - The base query is a string, the bind parameters a list of values.  A
      row array is a list: the array [db.select] resolves to belongs to the
      instance from then on, so that [pop] is a change of the cache alone. *)

From Stdlib Require Import ZArith QArith Qcanon List String Ascii Bool Lia.
From Stdlib Require Import DecimalString.
Import ListNotations.

Set Implicit Arguments.

(** ** JavaScript values *)

Module Js.

Inductive number : Type :=
| NaN
| Inf (negative : bool)
| NegZero
| Fin (q : Qc).

(** Integer-valued numbers. *)
Definition ofZ (z : Z) : Qc := Q2Qc (inject_Z z).
Definition int (z : Z) : number := Fin (ofZ z).
Definition ofNat (n : nat) : number := int (Z.of_nat n).

Inductive value : Type :=
| VUndefined
| VNull
| VBool (b : bool)
| VNum (n : number)
| VBigInt (z : Z)
| VStr (s : string)
| VObj (o : object)
with object : Type :=
| ONil
| OField (key : string) (v : value) (rest : object).

(** [typeof v] *)
Definition typeof (v : value) : string :=
  match v with
  | VUndefined => "undefined"
  | VNull => "object"
  | VBool _ => "boolean"
  | VNum _ => "number"
  | VBigInt _ => "bigint"
  | VStr _ => "string"
  | VObj _ => "object"
  end.

(** [v !== null] *)
Definition is_not_null (v : value) : bool :=
  match v with
  | VNull => false
  | _ => true
  end.

Definition Qc_is_zero (q : Qc) : bool := Qeq_bool q 0.

Definition Qc_ltb (x y : Qc) : bool := negb (Qle_bool y x).

(** ToBoolean *)
Definition truthy (v : value) : bool :=
  match v with
  | VUndefined => false
  | VNull => false
  | VBool b => b
  | VNum NaN => false
  | VNum (Inf _) => true
  | VNum NegZero => false
  | VNum (Fin q) => negb (Qc_is_zero q)
  | VBigInt z => negb (z =? 0)%Z
  | VStr s => negb (String.eqb s "")
  | VObj _ => true
  end.

(** [a || b] *)
Definition or (a b : value) : value := if truthy a then a else b.

(** Arithmetic and comparison on numbers.  [NaN] is absorbing and every
    comparison with it is false; infinities of opposite signs add up to
    [NaN], as does the product of an infinity and a zero; an exact zero
    sum or difference is the positive zero unless both terms are negative
    zeros; a zero product has the sign of its factors. *)
Definition add (a b : number) : number :=
  match a, b with
  | NaN, _ | _, NaN => NaN
  | Inf s, Inf t => if Bool.eqb s t then Inf s else NaN
  | Inf s, _ => Inf s
  | _, Inf t => Inf t
  | NegZero, NegZero => NegZero
  | NegZero, Fin y => Fin y
  | Fin x, NegZero => Fin x
  | Fin x, Fin y => Fin (x + y)
  end.

Definition sub (a b : number) : number :=
  match a, b with
  | NaN, _ | _, NaN => NaN
  | Inf s, Inf t => if Bool.eqb s t then NaN else Inf s
  | Inf s, _ => Inf s
  | _, Inf t => Inf (negb t)
  | NegZero, NegZero => Fin 0
  | NegZero, Fin y => if Qc_is_zero y then NegZero else Fin (- y)
  | Fin x, NegZero => Fin x
  | Fin x, Fin y => Fin (x - y)
  end.

(** The sign bit and the zero test of a number other than [NaN]. *)
Definition negative (a : number) : bool :=
  match a with
  | NaN => false
  | Inf s => s
  | NegZero => true
  | Fin q => Qc_ltb q 0
  end.

Definition is_zero (a : number) : bool :=
  match a with
  | NegZero => true
  | Fin q => Qc_is_zero q
  | _ => false
  end.

Definition signed_zero (s : bool) : number := if s then NegZero else Fin 0.

Definition mul (a b : number) : number :=
  match a, b with
  | NaN, _ | _, NaN => NaN
  | Inf s, _ =>
      if is_zero b then NaN else Inf (xorb s (negative b))
  | _, Inf t =>
      if is_zero a then NaN else Inf (xorb (negative a) t)
  | Fin x, Fin y =>
      if Qc_is_zero (x * y) then signed_zero (xorb (negative a) (negative b))
      else Fin (x * y)
  | _, _ => signed_zero (xorb (negative a) (negative b))
  end.

(** [a > b] *)
Definition gt (a b : number) : bool :=
  match a, b with
  | NaN, _ | _, NaN => false
  | Inf true, _ => false
  | Inf false, Inf false => false
  | Inf false, _ => true
  | _, Inf t => t
  | NegZero, NegZero => false
  | NegZero, Fin y => Qc_ltb y 0
  | Fin x, NegZero => Qc_ltb 0 x
  | Fin x, Fin y => Qc_ltb y x
  end.

(** The number behind a value whose [typeof] is ["number"]. *)
Definition as_number (v : value) : number :=
  match v with
  | VNum n => n
  | _ => NaN
  end.

Definition is_integer (q : Qc) : bool := (Qden q =? 1)%positive.

(** An integer of magnitude at most 2^53: a binary64 value that prints in
    plain decimal digits. *)
Definition is_plain_integer (q : Qc) : bool :=
  is_integer q && (Z.abs (Qnum q) <=? 2 ^ 53)%Z.

(** The decimal digits of an integer, with a minus sign when negative. *)
Definition decimal (z : Z) : string := NilZero.string_of_int (Z.to_int z).

Section ToString.

(** The text of a finite number that is not an integer of magnitude at
    most 2^53: the host's shortest round-trip rendering, which the exact
    model does not determine. *)
Variable fraction_text : Qc -> string.

(** The text a template literal substitutes for a number. *)
Definition toString (n : number) : string :=
  match n with
  | NaN => "NaN"
  | Inf false => "Infinity"
  | Inf true => "-Infinity"
  | NegZero => "0"
  | Fin q => if is_plain_integer q then decimal (Qnum q) else fraction_text q
  end.

End ToString.

End Js.

Import Js.

(** ** LesgoException

    Modelled from the spec: the class [LesgoException] of
    [exceptions/LesgoException] is not among the sources.  The spec
    (section 6) describes the error as carrying a human-readable message, a
    machine-readable code, an HTTP-style status hint and a context payload;
    these are the four arguments the constructor passes, in this order. *)

Record LesgoException : Type := {
  message : string;
  code : string;
  statusCode : Z;
  extra : object
}.

Definition FILE : string := "Services/pagination/Paginator".

(** The object returned by [toObject]. *)
Module Summary.
Record t (Row : Type) : Type := {
  count : nat;
  previous_page : value;
  current_page : number;
  next_page : value;
  per_page : number;
  items : list Row
}.
End Summary.

Section Paginator.

(** A result row, the state of the data source and its failures are opaque. *)
Variables (Row DataSource DbError : Type).

(** [db.select(sql, params)] *)
Variable select :
  DataSource -> string -> list value -> DataSource * (DbError + list Row).

Variable fraction_text : Qc -> string.

Record Paginator : Type := {
  sqlProp : string;
  sqlParamsProp : list value;
  perPageProp : number;
  currentPageProp : number;
  hasNext : bool;
  response : list Row
}.

(** *** constructor(sql, sqlParams, perPage, currentPage = null)

    An omitted argument is [VUndefined]; the default initialiser replaces
    an undefined [currentPage] by [null].  Past the three checks [perPage]
    is a number and [currentPage || 1] is one, which is what [as_number]
    reads off. *)
Definition constructor (sql : string) (sqlParams : list value)
           (perPage currentPageArg : value) : LesgoException + Paginator :=
  let currentPage :=
    match currentPageArg with VUndefined => VNull | v => v end in
  if String.eqb (typeof perPage) "undefined" then
    inl {| message := "Missing required 'perPage'";
           code := FILE ++ "::MISSING_REQUIRED_PER_PAGE";
           statusCode := 500;
           extra := OField "perPage" perPage ONil |}
  else if negb (String.eqb (typeof perPage) "number") then
    inl {| message := "Invalid type for 'perPage'";
           code := FILE ++ "::INVALID_TYPE_PER_PAGE";
           statusCode := 500;
           extra := OField "perPage" perPage ONil |}
  else if is_not_null currentPage
          && negb (String.eqb (typeof currentPage) "number") then
    inl {| message := "Invalid type for 'currentPage'";
           code := FILE ++ "::INVALID_TYPE_CURRENT_PAGE";
           statusCode := 500;
           extra := OField "currentPage" currentPage ONil |}
  else
    inr {| sqlProp := sql;
           sqlParamsProp := sqlParams;
           perPageProp := as_number perPage;
           currentPageProp := as_number (Js.or currentPage (VNum (int 1)));
           hasNext := false;
           response := [] |}.

(** *** Synchronous methods *)

Definition currentPage (this : Paginator) : number := currentPageProp this.

Definition perPage (this : Paginator) : number := perPageProp this.

Definition previousPage (this : Paginator) : value :=
  if gt (currentPage this) (int 1)
  then VNum (sub (currentPage this) (int 1))
  else VBool false.

Record LimitAndOffset : Type := { offset : number; limit : number }.

Definition getLimitAndOffsetByPageAndContentPerPage (this : Paginator)
  : LimitAndOffset :=
  {| offset := sub (mul (currentPage this) (perPage this)) (perPage this);
     limit := perPage this |}.

Definition generatePaginationSqlSnippet (this : Paginator) : string :=
  let values := getLimitAndOffsetByPageAndContentPerPage this in
  let limitWithExtraData := add (limit values) (int 1) in
  sqlProp this
    ++ (" LIMIT " ++ toString fraction_text limitWithExtraData
        ++ " OFFSET " ++ toString fraction_text (offset values)).

(** *** The world and asynchronous computations *)

Record World : Type := {
  db : DataSource;
  calls : list (string * list value)
}.

Inductive Outcome (A : Type) : Type :=
| Return (a : A)
| Throw (e : DbError).
Arguments Return {A} a.
Arguments Throw {A} e.

Definition Async (A : Type) : Type :=
  Paginator -> World -> Outcome A * Paginator * World.

Definition ret {A} (a : A) : Async A := fun this w => (Return a, this, w).

Definition bind {A B} (m : Async A) (k : A -> Async B) : Async B :=
  fun this w =>
    match m this w with
    | (Return a, this', w') => k a this' w'
    | (Throw e, this', w') => (Throw e, this', w')
    end.

Notation "x <- m ;; k" := (bind m (fun x => k))
  (at level 61, m at next level, right associativity).
Notation "m ;; k" := (bind m (fun _ => k))
  (at level 61, right associativity).

(** Reading a property of [this]. *)
Definition read {A} (f : Paginator -> A) : Async A :=
  fun this w => (Return (f this), this, w).

(** [this] with its two mutable properties replaced. *)
Definition with_cache (this : Paginator) (hn : bool) (rows : list Row)
  : Paginator :=
  {| sqlProp := sqlProp this;
     sqlParamsProp := sqlParamsProp this;
     perPageProp := perPageProp this;
     currentPageProp := currentPageProp this;
     hasNext := hn;
     response := rows |}.

(** [this.response = rows] *)
Definition set_response (rows : list Row) : Async unit :=
  fun this w => (Return tt, with_cache this (hasNext this) rows, w).

(** [this.hasNext = b] *)
Definition set_hasNext (b : bool) : Async unit :=
  fun this w => (Return tt, with_cache this b (response this), w).

(** The world after one more call of [db.select]. *)
Definition record_call (w : World) (d : DataSource) (sql : string)
           (params : list value) : World :=
  {| db := d; calls := calls w ++ [(sql, params)] |}.

(** [await db.select(sql, params)]: the call is logged; a rejection is
    thrown at the [await]. *)
Definition db_select (sql : string) (params : list value)
  : Async (list Row) :=
  fun this w =>
    let (d, r) := select (db w) sql params in
    let w' := record_call w d sql params in
    match r with
    | inl e => (Throw e, this, w')
    | inr rows => (Return rows, this, w')
    end.

Definition when (b : bool) {A} (m : Async A) : Async unit :=
  if b then m ;; ret tt else ret tt.

(** [this.response.length <= 0] *)
Definition response_is_empty (this : Paginator) : bool :=
  (List.length (response this) <=? 0)%nat.

(** *** executeQuery *)
Definition executeQuery : Async (list Row) :=
  sql <- read generatePaginationSqlSnippet ;;
  params <- read sqlParamsProp ;;
  rows <- db_select sql params ;;
  set_response rows ;;
  more <- read (fun this =>
            gt (ofNat (List.length (response this))) (perPage this)) ;;
  set_hasNext more ;;
  hn <- read hasNext ;;
  when hn (r <- read response ;; set_response (removelast r)) ;;
  read response.

(** The instance a successful [executeQuery] leaves behind when the data
    source answered [rows]. *)
Definition fetched (this : Paginator) (rows : list Row) : Paginator :=
  let more := gt (ofNat (List.length rows)) (perPage this) in
  with_cache this more (if more then removelast rows else rows).

(** *** Asynchronous accessors *)

Definition count : Async nat :=
  e <- read response_is_empty ;;
  when e executeQuery ;;
  read (fun this => List.length (response this)).

Definition nextPage : Async value :=
  e <- read response_is_empty ;;
  when e executeQuery ;;
  hn <- read hasNext ;;
  if hn then read (fun this => VNum (add (currentPage this) (int 1)))
  else ret (VBool false).

(** [this.response[0]]; [None] is [undefined]. *)
Definition firstItem : Async (option Row) :=
  e <- read response_is_empty ;;
  when e executeQuery ;;
  read (fun this => nth_error (response this) 0).

(** [this.response[this.response.length - 1]]; index [-1] of an empty
    array is [undefined]. *)
Definition lastItem : Async (option Row) :=
  e <- read response_is_empty ;;
  when e executeQuery ;;
  read (fun this =>
          match List.length (response this) with
          | O => None
          | S i => nth_error (response this) i
          end).

Definition items : Async (list Row) :=
  e <- read response_is_empty ;;
  when e executeQuery ;;
  read response.

Definition toObject : Async (Summary.t Row) :=
  e <- read response_is_empty ;;
  when e executeQuery ;;
  c <- count ;;
  pp <- read previousPage ;;
  cp <- read currentPage ;;
  np <- nextPage ;;
  per <- read perPage ;;
  its <- items ;;
  ret {| Summary.count := c;
         Summary.previous_page := pp;
         Summary.current_page := cp;
         Summary.next_page := np;
         Summary.per_page := per;
         Summary.items := its |}.

(** *** Sequences of awaited accessor calls *)

Inductive Accessor : Type :=
| Count | NextPage | FirstItem | LastItem | Items | ToObject.

Definition call (a : Accessor) : Async unit :=
  match a with
  | Count => count ;; ret tt
  | NextPage => nextPage ;; ret tt
  | FirstItem => firstItem ;; ret tt
  | LastItem => lastItem ;; ret tt
  | Items => items ;; ret tt
  | ToObject => toObject ;; ret tt
  end.

Fixpoint call_all (l : list Accessor) : Async unit :=
  match l with
  | [] => ret tt
  | a :: l' => call a ;; call_all l'
  end.

(** *** Predicates used in the statements *)

(** [m] maintains the property [P] of the instance and the world, whether
    it returns or throws. *)
Definition preserves (P : Paginator -> World -> Prop) {A} (m : Async A)
  : Prop :=
  forall this w o this' w',
    P this w -> m this w = (o, this', w') -> P this' w'.

(** Whenever [m] throws, it leaves the cache empty. *)
Definition throws_on_empty_cache {A} (m : Async A) : Prop :=
  forall this w e this' w',
    m this w = (Throw e, this', w') -> response this' = [].

(** [this'] has the settings of [this]: the query, its parameters, the
    page size and the page number. *)
Definition same_settings (this this' : Paginator) : Prop :=
  sqlProp this' = sqlProp this
  /\ sqlParamsProp this' = sqlParamsProp this
  /\ perPageProp this' = perPageProp this
  /\ currentPageProp this' = currentPageProp this.

(** The call log of [w'] continues the one of [w]. *)
Definition log_extends (w w' : World) : Prop :=
  exists more, calls w' = calls w ++ more.

End Paginator.

Arguments Return {DbError A} a.
Arguments Throw {DbError A} e.
Arguments ret {Row DataSource DbError A} a _ _.
Arguments read {Row DataSource DbError A} f _ _.
Arguments bind {Row DataSource DbError A B} m k _ _.
Arguments when {Row DataSource DbError} b {A} m _ _.
Arguments set_response {Row DataSource DbError} rows _ _.
Arguments set_hasNext {Row DataSource DbError} b _ _.

(** ** A scripted data source

    It answers the successive calls with the successive entries of a script
    and with an empty result once the script is exhausted.  It serves as the
    concrete collaborator of the examples. *)
Definition Script (Row DbError : Type) : Type := list (DbError + list Row).

Definition scripted {Row DbError : Type} (s : Script Row DbError)
           (_ : string) (_ : list value)
  : Script Row DbError * (DbError + list Row) :=
  match s with
  | [] => ([], inr [])
  | r :: s' => (s', r)
  end.

Definition no_fraction (_ : Qc) : string := "".

(** A table of [size] rows, numbered from 0, behind a data source that
    never returns more than [cap] rows. *)
Definition capped (cap : nat) (size : nat) (_ : string) (_ : list value)
  : nat * (string + list nat) :=
  (size, inr (seq 0 (Nat.min size cap))).

(** The instance [new Paginator("SELECT id FROM t", [], perPage, page)]
    for integers [perPage] and [page <> 0]. *)
Definition example_page (perPage page : Z) : Paginator nat :=
  {| sqlProp := "SELECT id FROM t";
     sqlParamsProp := [];
     perPageProp := int perPage;
     currentPageProp := int page;
     hasNext := false;
     response := [] |}.

Definition fresh_world {Row DbError : Type} (s : Script Row DbError)
  : World (Script Row DbError) :=
  {| db := s; calls := [] |}.

(** ** Facts about numbers *)

Section NumberFacts.

Local Open Scope Z_scope.

Lemma this_ofZ (z : Z) : this (ofZ z) = inject_Z z.
Proof.
  unfold ofZ, Q2Qc, this. apply Qred_identity.
  unfold inject_Z, Qnum, Qden. apply Z.gcd_1_r.
Qed.

Lemma ofZ_add (a b : Z) : (ofZ a + ofZ b)%Qc = ofZ (a + b).
Proof.
  unfold Qcplus. rewrite !this_ofZ. apply Q2Qc_eq_iff.
  rewrite inject_Z_plus. apply Qeq_refl.
Qed.

Lemma ofZ_mul (a b : Z) : (ofZ a * ofZ b)%Qc = ofZ (a * b).
Proof.
  unfold Qcmult. rewrite !this_ofZ. apply Q2Qc_eq_iff.
  rewrite inject_Z_mult. apply Qeq_refl.
Qed.

Lemma ofZ_opp (a : Z) : (- ofZ a)%Qc = ofZ (- a).
Proof.
  unfold Qcopp. rewrite this_ofZ. apply Q2Qc_eq_iff.
  rewrite inject_Z_opp. apply Qeq_refl.
Qed.

Lemma ofZ_sub (a b : Z) : (ofZ a - ofZ b)%Qc = ofZ (a - b).
Proof.
  unfold Qcminus. rewrite ofZ_opp, ofZ_add. reflexivity.
Qed.

Lemma ofZ_le (a b : Z) : (ofZ a <= ofZ b)%Qc <-> a <= b.
Proof.
  unfold Qcle. rewrite !this_ofZ, <- Zle_Qle. reflexivity.
Qed.

Lemma ofZ_lt (a b : Z) : (ofZ a < ofZ b)%Qc <-> a < b.
Proof.
  unfold Qclt. rewrite !this_ofZ, <- Zlt_Qlt. reflexivity.
Qed.

Lemma ofZ_0 : ofZ 0 = 0%Qc.
Proof. apply Qc_is_canon. reflexivity. Qed.

Lemma ofZ_1 : ofZ 1 = 1%Qc.
Proof. apply Qc_is_canon. reflexivity. Qed.

Lemma Qc_ltb_lt (x y : Qc) : Qc_ltb x y = true <-> (x < y)%Qc.
Proof.
  unfold Qc_ltb, Qclt. rewrite negb_true_iff.
  split; intro H.
  - apply Qnot_le_lt. intro L. apply Qle_bool_iff in L. congruence.
  - destruct (Qle_bool y x) eqn:E; [|reflexivity].
    apply Qle_bool_iff in E. exfalso. exact (Qlt_not_le _ _ H E).
Qed.

Lemma Qc_ltb_ge (x y : Qc) : Qc_ltb x y = false <-> (y <= x)%Qc.
Proof.
  unfold Qc_ltb, Qcle. rewrite negb_false_iff. apply Qle_bool_iff.
Qed.

Lemma Qc_is_zero_iff (q : Qc) : Qc_is_zero q = true <-> q = 0%Qc.
Proof.
  unfold Qc_is_zero. rewrite Qeq_bool_iff. split; intro H.
  - apply Qc_is_canon. exact H.
  - subst q. reflexivity.
Qed.

Lemma gt_int (a b : Z) : gt (int a) (int b) = (b <? a).
Proof.
  unfold gt, int.
  destruct (b <? a) eqn:E.
  - apply Qc_ltb_lt, ofZ_lt. apply Z.ltb_lt. exact E.
  - apply Qc_ltb_ge, ofZ_le. apply Z.ltb_ge. exact E.
Qed.

Lemma add_int (a b : Z) : add (int a) (int b) = int (a + b).
Proof. unfold add, int. now rewrite ofZ_add. Qed.

Lemma sub_int (a b : Z) : sub (int a) (int b) = int (a - b).
Proof. unfold sub, int. now rewrite ofZ_sub. Qed.

Lemma Qc_is_zero_ofZ (z : Z) : Qc_is_zero (ofZ z) = (z =? 0).
Proof.
  destruct (z =? 0) eqn:E.
  - apply Z.eqb_eq in E. subst z. reflexivity.
  - destruct (Qc_is_zero (ofZ z)) eqn:F; [|reflexivity].
    apply Qc_is_zero_iff in F. rewrite <- ofZ_0 in F.
    apply (f_equal this) in F. rewrite !this_ofZ in F.
    injection F as F. apply Z.eqb_neq in E. contradiction.
Qed.

Lemma negative_int (z : Z) : negative (int z) = (z <? 0).
Proof.
  unfold negative, int. rewrite <- ofZ_0.
  destruct (z <? 0) eqn:E.
  - apply Qc_ltb_lt, ofZ_lt. apply Z.ltb_lt. exact E.
  - apply Qc_ltb_ge, ofZ_le. apply Z.ltb_ge. exact E.
Qed.

(** A product of integers, unless it is a zero with a negative factor
    (which is the negative zero). *)
Lemma mul_int (a b : Z) :
  a * b <> 0 \/ (0 <= a /\ 0 <= b) ->
  mul (int a) (int b) = int (a * b).
Proof.
  intro H. unfold mul, int.
  change (Fin (ofZ a)) with (int a). change (Fin (ofZ b)) with (int b).
  rewrite !negative_int, ofZ_mul, Qc_is_zero_ofZ.
  destruct (Z.eqb_spec (a * b) 0) as [E|E]; [|reflexivity].
  destruct H as [H | [Ha Hb]]; [contradiction|].
  destruct (Z.ltb_spec a 0); [lia|]. destruct (Z.ltb_spec b 0); [lia|].
  rewrite E. reflexivity.
Qed.

(** [1 * x] is [x] and [x - x] is the positive zero, for every finite
    [x]. *)
Lemma mul_one_l (x : Qc) : mul (int 1) (Fin x) = Fin x.
Proof.
  unfold mul, int. rewrite ofZ_1.
  replace (1 * x)%Qc with x by ring.
  destruct (Qc_is_zero x) eqn:E; [|reflexivity].
  apply Qc_is_zero_iff in E. subst x. reflexivity.
Qed.

Lemma sub_self (x : Qc) : sub (Fin x) (Fin x) = int 0.
Proof. unfold sub, int. rewrite ofZ_0. f_equal. ring. Qed.

Lemma truthy_int (z : Z) : truthy (VNum (int z)) = negb (z =? 0).
Proof. simpl. f_equal. apply Qc_is_zero_ofZ. Qed.

(** Integers of magnitude at most 2^53 print in plain decimal digits. *)
Lemma toString_int (ft : Qc -> string) (z : Z) :
  Z.abs z <= 2 ^ 53 -> toString ft (int z) = decimal z.
Proof.
  intro H. unfold toString, int, is_plain_integer, is_integer.
  rewrite this_ofZ. cbn [inject_Z Qnum Qden].
  destruct (Z.leb_spec (Z.abs z) (2 ^ 53)); [reflexivity | lia].
Qed.

End NumberFacts.

(** ** How the methods run *)

Section Runs.

Variables (Row DataSource DbError : Type).
Variable select :
  DataSource -> string -> list value -> DataSource * (DbError + list Row).
Variable fraction_text : Qc -> string.

Local Abbreviation Pg := (Paginator Row).
Local Abbreviation Wd := (World DataSource).
Local Abbreviation query := (generatePaginationSqlSnippet fraction_text).
Local Abbreviation executeQuery' := (executeQuery select fraction_text).
Local Abbreviation call' := (call select fraction_text).
Local Abbreviation call_all' := (call_all select fraction_text).

Lemma response_is_empty_true (p : Pg) :
  response p = [] -> response_is_empty p = true.
Proof. intro H. unfold response_is_empty. rewrite H. reflexivity. Qed.

Lemma response_is_empty_false (p : Pg) :
  response p <> [] -> response_is_empty p = false.
Proof.
  intro H. unfold response_is_empty.
  destruct (response p); [contradiction | reflexivity].
Qed.

Lemma executeQuery_throws (p : Pg) (w : Wd) d e :
  select (db w) (query p) (sqlParamsProp p) = (d, inl e) ->
  executeQuery' p w
  = (Throw e, p, record_call w d (query p) (sqlParamsProp p)).
Proof.
  intro H. unfold executeQuery, bind, read, db_select. rewrite H.
  reflexivity.
Qed.

Lemma executeQuery_returns (p : Pg) (w : Wd) d rows :
  select (db w) (query p) (sqlParamsProp p) = (d, inr rows) ->
  executeQuery' p w
  = (Return (response (fetched p rows)), fetched p rows,
     record_call w d (query p) (sqlParamsProp p)).
Proof.
  intro H.
  unfold executeQuery, bind, read, db_select. rewrite H.
  destruct p as [sql params per cur hn rs].
  cbv beta iota delta
      [fetched with_cache set_response set_hasNext when bind read ret
       response hasNext perPage perPageProp].
  destruct (gt (ofNat (List.length rows)) per); reflexivity.
Qed.

(** Every execution logs exactly one call, with the windowed query and
    the original bind parameters. *)
Lemma executeQuery_logs (p : Pg) (w : Wd) :
  exists o p' d,
    executeQuery' p w
    = (o, p', record_call w d (query p) (sqlParamsProp p)).
Proof.
  destruct (select (db w) (query p) (sqlParamsProp p)) as [d [e|rows]] eqn:H.
  - eexists _, _, _. apply executeQuery_throws. exact H.
  - eexists _, _, _. apply executeQuery_returns. exact H.
Qed.

(** *** The guard every asynchronous accessor starts with *)

Lemma bind_run (A B : Type) (m : Async Row DataSource DbError A)
      (k : A -> Async Row DataSource DbError B) (p : Pg) (w : Wd) :
  bind m k p w
  = match m p w with
    | (Return a, p', w') => k a p' w'
    | (Throw e, p', w') => (Throw e, p', w')
    end.
Proof. reflexivity. Qed.

Lemma bind_assoc (A B C : Type) (m : Async Row DataSource DbError A)
      (k : A -> Async Row DataSource DbError B)
      (k' : B -> Async Row DataSource DbError C) (p : Pg) (w : Wd) :
  bind (bind m k) k' p w = bind m (fun a => bind (k a) k') p w.
Proof.
  unfold bind. destruct (m p w) as [[[a|e] p1] w1]; reflexivity.
Qed.

Lemma guard_cached (A : Type) (k : Async Row DataSource DbError A)
      (p : Pg) (w : Wd) :
  response p <> [] ->
  bind (read (@response_is_empty Row))
       (fun e => bind (when e executeQuery') (fun _ => k)) p w
  = k p w.
Proof.
  intro H. unfold bind, read, when, ret.
  rewrite response_is_empty_false by exact H. reflexivity.
Qed.

Lemma guard_unfetched (A : Type) (k : Async Row DataSource DbError A)
      (p : Pg) (w : Wd) :
  response p = [] ->
  bind (read (@response_is_empty Row))
       (fun e => bind (when e executeQuery') (fun _ => k)) p w
  = bind executeQuery' (fun _ => k) p w.
Proof.
  intro H. unfold bind, read, when, ret.
  rewrite response_is_empty_true by exact H. unfold bind.
  destruct (executeQuery' p w) as [[[r|e] p1] w1]; reflexivity.
Qed.

(** *** Accessors on a populated cache: no execution *)

Ltac unfold_accessors :=
  unfold call, toObject, count, nextPage, firstItem, lastItem, items,
         bind, read, when, ret.

Ltac cached_run H :=
  unfold_accessors;
  repeat (rewrite response_is_empty_false by exact H; cbv beta iota);
  try reflexivity.

Lemma count_cached (p : Pg) (w : Wd) :
  response p <> [] ->
  count select fraction_text p w = (Return (List.length (response p)), p, w).
Proof. intro H. cached_run H. Qed.

Lemma nextPage_cached (p : Pg) (w : Wd) :
  response p <> [] ->
  nextPage select fraction_text p w
  = (Return (if hasNext p then VNum (add (currentPage p) (int 1))
             else VBool false), p, w).
Proof. intro H. cached_run H. destruct (hasNext p); reflexivity. Qed.

Lemma firstItem_cached (p : Pg) (w : Wd) :
  response p <> [] ->
  firstItem select fraction_text p w = (Return (nth_error (response p) 0), p, w).
Proof. intro H. cached_run H. Qed.

Lemma lastItem_cached (p : Pg) (w : Wd) :
  response p <> [] ->
  lastItem select fraction_text p w
  = (Return (nth_error (response p) (Nat.pred (List.length (response p)))),
     p, w).
Proof.
  intro H. cached_run H.
  destruct (response p); [contradiction | reflexivity].
Qed.

Lemma items_cached (p : Pg) (w : Wd) :
  response p <> [] ->
  items select fraction_text p w = (Return (response p), p, w).
Proof. intro H. cached_run H. Qed.

Lemma toObject_cached (p : Pg) (w : Wd) :
  response p <> [] ->
  toObject select fraction_text p w
  = (Return {| Summary.count := List.length (response p);
               Summary.previous_page := previousPage p;
               Summary.current_page := currentPage p;
               Summary.next_page :=
                 if hasNext p then VNum (add (currentPage p) (int 1))
                 else VBool false;
               Summary.per_page := perPage p;
               Summary.items := response p |}, p, w).
Proof.
  intro H. unfold toObject, bind, read, when, ret.
  rewrite response_is_empty_false by exact H.
  rewrite count_cached, nextPage_cached, items_cached by exact H.
  reflexivity.
Qed.

Lemma call_cached (a : Accessor) (p : Pg) (w : Wd) :
  response p <> [] -> call' a p w = (Return tt, p, w).
Proof.
  intro H. destruct a; unfold call, bind.
  - rewrite count_cached by exact H. reflexivity.
  - rewrite nextPage_cached by exact H. reflexivity.
  - rewrite firstItem_cached by exact H. reflexivity.
  - rewrite lastItem_cached by exact H. reflexivity.
  - rewrite items_cached by exact H. reflexivity.
  - rewrite toObject_cached by exact H. reflexivity.
Qed.

Lemma call_all_cached (l : list Accessor) (p : Pg) (w : Wd) :
  response p <> [] -> call_all' l p w = (Return tt, p, w).
Proof.
  intro H. induction l as [|a l IH]; [reflexivity|].
  simpl. unfold bind. rewrite call_cached by exact H. exact IH.
Qed.

(** *** Accessors on an empty cache: the execution comes first *)

Ltac unfetched_run H :=
  unfold_accessors;
  rewrite response_is_empty_true by exact H; cbv beta iota; unfold bind.

Section Unfetched.

Variables (p : Pg) (w : Wd) (d : DataSource).
Hypothesis empty : response p = [].

Local Abbreviation w1 := (record_call w d (query p) (sqlParamsProp p)).

Lemma call_fetch_throws (a : Accessor) (e : DbError) :
  select (db w) (query p) (sqlParamsProp p) = (d, inl e) ->
  call' a p w = (Throw e, p, w1).
Proof.
  intro H. destruct a; unfetched_run empty;
    rewrite (executeQuery_throws _ _ H); reflexivity.
Qed.

Variable rows : list Row.
Hypothesis answer :
  select (db w) (query p) (sqlParamsProp p) = (d, inr rows).

Lemma count_fetch_returns :
  count select fraction_text p w
  = (Return (List.length (response (fetched p rows))), fetched p rows, w1).
Proof.
  unfetched_run empty. rewrite (executeQuery_returns _ _ answer).
  reflexivity.
Qed.

Lemma nextPage_fetch_returns :
  nextPage select fraction_text p w
  = (Return (if hasNext (fetched p rows)
             then VNum (add (currentPage p) (int 1))
             else VBool false), fetched p rows, w1).
Proof.
  unfetched_run empty. rewrite (executeQuery_returns _ _ answer).
  cbv beta iota. destruct (hasNext (fetched p rows)); reflexivity.
Qed.

Lemma firstItem_fetch_returns :
  firstItem select fraction_text p w
  = (Return (nth_error (response (fetched p rows)) 0), fetched p rows, w1).
Proof.
  unfetched_run empty. rewrite (executeQuery_returns _ _ answer).
  reflexivity.
Qed.

Lemma lastItem_fetch_returns :
  lastItem select fraction_text p w
  = (Return (match List.length (response (fetched p rows)) with
             | O => None
             | S i => nth_error (response (fetched p rows)) i
             end), fetched p rows, w1).
Proof.
  unfetched_run empty. rewrite (executeQuery_returns _ _ answer).
  reflexivity.
Qed.

Lemma items_fetch_returns :
  items select fraction_text p w
  = (Return (response (fetched p rows)), fetched p rows, w1).
Proof.
  unfetched_run empty. rewrite (executeQuery_returns _ _ answer).
  reflexivity.
Qed.

Lemma toObject_fetch_returns :
  response (fetched p rows) <> [] ->
  toObject select fraction_text p w
  = toObject select fraction_text (fetched p rows) w1.
Proof.
  intro H. rewrite (toObject_cached _ w1 H).
  unfold toObject, bind, read, when, ret.
  rewrite response_is_empty_true by exact empty.
  unfold bind. rewrite (executeQuery_returns _ _ answer).
  rewrite count_cached, nextPage_cached, items_cached by exact H.
  reflexivity.
Qed.

Lemma call_fetch_returns (a : Accessor) :
  response (fetched p rows) <> [] ->
  call' a p w = (Return tt, fetched p rows, w1).
Proof.
  intro H. destruct a; unfold call, bind.
  - rewrite count_fetch_returns. reflexivity.
  - rewrite nextPage_fetch_returns. reflexivity.
  - rewrite firstItem_fetch_returns. reflexivity.
  - rewrite lastItem_fetch_returns. reflexivity.
  - rewrite items_fetch_returns. reflexivity.
  - rewrite (toObject_fetch_returns H), (toObject_cached _ w1 H). reflexivity.
Qed.

End Unfetched.

(** *** Properties maintained by every accessor

    The accessors change the instance and the world through [executeQuery]
    only, so a property that [executeQuery] maintains is maintained by every
    sequence of accessor calls. *)

Create HintDb paginator.

Section PreservationBasics.

Variable P : Pg -> Wd -> Prop.

Lemma preserves_ret (A : Type) (a : A) :
  preserves P (ret (DbError:=DbError) a).
Proof. intros p w o p' w' HP E. inversion E; subst. exact HP. Qed.

Lemma preserves_read (A : Type) (f : Pg -> A) :
  preserves P (read (DbError:=DbError) f).
Proof. intros p w o p' w' HP E. inversion E; subst. exact HP. Qed.

Lemma preserves_bind (A B : Type)
      (m : Async Row DataSource DbError A)
      (k : A -> Async Row DataSource DbError B) :
  preserves P m -> (forall a, preserves P (k a)) -> preserves P (bind m k).
Proof.
  intros Hm Hk p w o p' w' HP E. unfold bind in E.
  destruct (m p w) as [[o1 p1] w1] eqn:Em.
  pose proof (Hm _ _ _ _ _ HP Em) as HP1.
  destruct o1 as [a|e].
  - exact (Hk a _ _ _ _ _ HP1 E).
  - inversion E; subst. exact HP1.
Qed.

Lemma preserves_when (b : bool) (A : Type)
      (m : Async Row DataSource DbError A) :
  preserves P m -> preserves P (when b m).
Proof.
  intro Hm. unfold when. destruct b.
  - apply preserves_bind; [exact Hm | intro; apply preserves_ret].
  - apply preserves_ret.
Qed.

End PreservationBasics.

Ltac preserve_step :=
  match goal with
  | |- preserves _ (bind _ _) => apply preserves_bind; [ | intro ]
  | |- preserves _ (read _) => apply preserves_read
  | |- preserves _ (ret _) => apply preserves_ret
  | |- preserves _ (when _ _) => apply preserves_when
  | |- preserves _ (if ?b then _ else _) => destruct b
  | |- preserves _ _ => solve [auto with paginator]
  end.

Section Preservation.

Variable P : Pg -> Wd -> Prop.
Hypothesis P_executeQuery : preserves P executeQuery'.

Local Hint Resolve P_executeQuery : paginator.

Lemma preserves_count : preserves P (count select fraction_text).
Proof. unfold count. repeat preserve_step. Qed.

Lemma preserves_nextPage : preserves P (nextPage select fraction_text).
Proof. unfold nextPage. repeat preserve_step. Qed.

Lemma preserves_firstItem : preserves P (firstItem select fraction_text).
Proof. unfold firstItem. repeat preserve_step. Qed.

Lemma preserves_lastItem : preserves P (lastItem select fraction_text).
Proof. unfold lastItem. repeat preserve_step. Qed.

Lemma preserves_items : preserves P (items select fraction_text).
Proof. unfold items. repeat preserve_step. Qed.

Local Hint Resolve preserves_count preserves_nextPage preserves_items
  : paginator.

Lemma preserves_toObject : preserves P (toObject select fraction_text).
Proof. unfold toObject. repeat preserve_step. Qed.

Local Hint Resolve preserves_firstItem preserves_lastItem preserves_toObject
  : paginator.

Lemma preserves_call (a : Accessor) : preserves P (call' a).
Proof. destruct a; unfold call; repeat preserve_step. Qed.

Lemma preserves_call_all (l : list Accessor) : preserves P (call_all' l).
Proof.
  induction l as [|a l IH]; simpl.
  - apply preserves_ret.
  - apply preserves_bind; [apply preserves_call | intro; exact IH].
Qed.

End Preservation.

(** *** What an execution changes *)

Lemma executeQuery_outcomes (p : Pg) (w : Wd) :
  (exists d e,
      select (db w) (query p) (sqlParamsProp p) = (d, inl e)
      /\ executeQuery' p w
         = (Throw e, p, record_call w d (query p) (sqlParamsProp p)))
  \/ (exists d rows,
         select (db w) (query p) (sqlParamsProp p) = (d, inr rows)
         /\ executeQuery' p w
            = (Return (response (fetched p rows)), fetched p rows,
               record_call w d (query p) (sqlParamsProp p))).
Proof.
  destruct (select (db w) (query p) (sqlParamsProp p)) as [d [e|rows]] eqn:H.
  - left. exists d, e. split; [reflexivity|].
    apply executeQuery_throws. exact H.
  - right. exists d, rows. split; [reflexivity|].
    apply executeQuery_returns. exact H.
Qed.

Lemma same_settings_refl (p : Pg) : same_settings p p.
Proof. repeat split. Qed.

Lemma same_settings_fetched (p q : Pg) (rows : list Row) :
  same_settings p q -> same_settings p (fetched q rows).
Proof. intro H. exact H. Qed.

Lemma same_settings_query (p q : Pg) :
  same_settings p q -> query q = query p /\ perPage q = perPage p.
Proof.
  intros (Hs & _ & Hp & Hc).
  unfold generatePaginationSqlSnippet,
    getLimitAndOffsetByPageAndContentPerPage, currentPage, perPage.
  rewrite Hs, Hp, Hc. split; reflexivity.
Qed.

Lemma preserves_settings (p0 : Pg) :
  preserves (fun (q : Pg) (_ : Wd) => same_settings p0 q) executeQuery'.
Proof.
  intros p w o p' w' HP E.
  destruct (executeQuery_outcomes p w)
    as [(d & e & _ & E') | (d & rows & _ & E')];
    rewrite E' in E; inversion E; subst.
  - exact HP.
  - apply same_settings_fetched. exact HP.
Qed.

Lemma log_extends_refl (w : Wd) : log_extends w w.
Proof. exists []. symmetry. apply app_nil_r. Qed.

Lemma preserves_log (w0 : Wd) :
  preserves (fun (_ : Pg) (w' : Wd) => log_extends w0 w') executeQuery'.
Proof.
  intros p w o p' w' [more HP] E.
  destruct (executeQuery_logs p w) as (o1 & p1 & d & E').
  rewrite E' in E. inversion E; subst.
  exists (more ++ [(query p, sqlParamsProp p)]).
  unfold record_call; simpl. rewrite HP. symmetry. apply app_assoc.
Qed.

(** On an empty cache every accessor starts with an execution: the first
    call it adds to the log is the windowed query. *)
Lemma call_unfetched_logs (b : Accessor) (p : Pg) (w : Wd) :
  response p = [] ->
  exists o p' w' more,
    call' b p w = (o, p', w')
    /\ calls w' = calls w ++ (query p, sqlParamsProp p) :: more.
Proof.
  intro H.
  destruct (executeQuery_logs p w) as (o1 & p1 & d & E).
  set (w1 := record_call w d (query p) (sqlParamsProp p)) in *.
  assert (K : forall k : Async Row DataSource DbError unit,
             preserves (fun (_ : Pg) (w' : Wd) => log_extends w1 w') k ->
             exists o p' w' more,
               bind executeQuery' (fun _ => k) p w = (o, p', w')
               /\ calls w' = calls w ++ (query p, sqlParamsProp p) :: more).
  { intros k Hk. rewrite bind_run, E. destruct o1 as [r|e].
    - destruct (k p1 w1) as [[o2 p2] w2] eqn:Ek.
      destruct (Hk _ _ _ _ _ (log_extends_refl w1) Ek) as [more Hm].
      exists o2, p2, w2, more. split; [reflexivity|].
      rewrite Hm. unfold w1, record_call; simpl.
      rewrite <- app_assoc. reflexivity.
    - exists (Throw e), p1, w1, []. split; reflexivity. }
  assert (L := @preserves_log w1).
  destruct b; unfold call, count, nextPage, firstItem, lastItem, items,
              toObject;
    rewrite bind_run, guard_unfetched by exact H; rewrite <- bind_run;
    rewrite bind_assoc; apply K; repeat preserve_step;
    auto using preserves_count, preserves_nextPage, preserves_items;
    apply preserves_ret.
Qed.

(** *** The instance after a successful execution *)

Lemma length_removelast (rows : list Row) :
  List.length (removelast rows) = Nat.pred (List.length rows).
Proof.
  rewrite removelast_firstn_len, length_firstn. lia.
Qed.

(** No more rows than the page size: nothing is trimmed. *)
Lemma fetched_within (p : Pg) (rows : list Row) (pageSize : Qc) :
  perPage p = Fin pageSize ->
  (ofZ (Z.of_nat (List.length rows)) <= pageSize)%Qc ->
  fetched p rows = with_cache p false rows.
Proof.
  intros Hp Hle. unfold fetched. rewrite Hp.
  assert (G : gt (ofNat (List.length rows)) (Fin pageSize) = false).
  { unfold gt, ofNat, int. apply Qc_ltb_ge. exact Hle. }
  rewrite G. reflexivity.
Qed.

(** One row more than the page size: the last one is trimmed. *)
Lemma fetched_over (p : Pg) (rows : list Row) (pageSize : nat) :
  perPage p = ofNat pageSize ->
  List.length rows = S pageSize ->
  fetched p rows = with_cache p true (firstn pageSize rows).
Proof.
  intros Hp Hlen. unfold fetched. rewrite Hp, Hlen.
  assert (G : gt (ofNat (S pageSize)) (ofNat pageSize) = true).
  { unfold ofNat. rewrite gt_int. apply Z.ltb_lt. lia. }
  rewrite G, removelast_firstn_len, Hlen. reflexivity.
Qed.

Lemma fetched_nonempty (p : Pg) (rows : list Row) (pageSize : Qc) :
  perPage p = Fin pageSize -> (1 <= pageSize)%Qc -> rows <> [] ->
  response (fetched p rows) <> [].
Proof.
  intros Hp H1 Hne. unfold fetched. rewrite Hp.
  destruct (gt (ofNat (List.length rows)) (Fin pageSize)) eqn:G;
    [|exact Hne].
  unfold gt, ofNat, int in G. apply Qc_ltb_lt in G.
  assert (L : (1 < Z.of_nat (List.length rows))%Z).
  { apply ofZ_lt. rewrite ofZ_1.
    apply Qcle_lt_trans with pageSize; assumption. }
  destruct rows as [|a [|b rows']]; simpl in L; try lia.
  simpl. discriminate.
Qed.

Lemma fetched_bounded (p : Pg) (rows : list Row) (pageSize : Qc) :
  perPage p = Fin pageSize -> (0 <= pageSize)%Qc ->
  (ofZ (Z.of_nat (List.length rows)) <= pageSize + 1)%Qc ->
  (ofZ (Z.of_nat (List.length (response (fetched p rows)))) <= pageSize)%Qc.
Proof.
  intros Hp H0 Hle. unfold fetched. rewrite Hp.
  destruct (gt (ofNat (List.length rows)) (Fin pageSize)) eqn:G.
  - unfold gt, ofNat, int in G. apply Qc_ltb_lt in G.
    assert (L : (0 < Z.of_nat (List.length rows))%Z).
    { apply ofZ_lt. rewrite ofZ_0.
      apply Qcle_lt_trans with pageSize; assumption. }
    cbv beta iota delta [with_cache response].
    rewrite length_removelast.
    replace (Z.of_nat (Nat.pred (List.length rows)))
      with (Z.of_nat (List.length rows) - 1)%Z by lia.
    rewrite <- ofZ_sub, ofZ_1.
    apply Qcle_minus_iff. apply Qcle_minus_iff in Hle.
    replace (pageSize + - (ofZ (Z.of_nat (List.length rows)) - 1))%Qc
      with (pageSize + 1 + - ofZ (Z.of_nat (List.length rows)))%Qc by ring.
    exact Hle.
  - unfold gt, ofNat, int in G. apply Qc_ltb_ge in G. exact G.
Qed.

(** *** A thrown accessor leaves the cache empty *)

Lemma throws_ret (A : Type) (a : A) :
  throws_on_empty_cache (ret (Row:=Row) (DataSource:=DataSource)
                             (DbError:=DbError) a).
Proof. intros p w e p' w' E. discriminate E. Qed.

Lemma throws_read (A : Type) (f : Pg -> A) :
  throws_on_empty_cache (read (DataSource:=DataSource) (DbError:=DbError) f).
Proof. intros p w e p' w' E. discriminate E. Qed.

Lemma throws_bind (A B : Type) (m : Async Row DataSource DbError A)
      (k : A -> Async Row DataSource DbError B) :
  throws_on_empty_cache m -> (forall a, throws_on_empty_cache (k a)) ->
  throws_on_empty_cache (bind m k).
Proof.
  intros Hm Hk p w e p' w' E. rewrite bind_run in E.
  destruct (m p w) as [[[a|e1] p1] w1] eqn:Em.
  - exact (Hk a _ _ _ _ _ E).
  - inversion E; subst. exact (Hm _ _ _ _ _ Em).
Qed.

Lemma throws_guard (A : Type) (k : Async Row DataSource DbError A) :
  throws_on_empty_cache k ->
  throws_on_empty_cache
    (bind (read (@response_is_empty Row))
          (fun e => bind (when e executeQuery') (fun _ => k))).
Proof.
  intros Hk p w e p' w' E. destruct (response p) as [|r rs] eqn:Hr.
  - rewrite guard_unfetched in E by exact Hr. rewrite bind_run in E.
    destruct (executeQuery_outcomes p w)
      as [(d & e1 & _ & E1) | (d & rows & _ & E1)]; rewrite E1 in E.
    + inversion E; subst. exact Hr.
    + exact (Hk _ _ _ _ _ E).
  - rewrite guard_cached in E by (rewrite Hr; discriminate).
    exact (Hk _ _ _ _ _ E).
Qed.

Ltac throws_step :=
  match goal with
  | |- throws_on_empty_cache (bind _ _) => apply throws_guard
  | |- throws_on_empty_cache (bind _ _) => apply throws_bind; [ | intro ]
  | |- throws_on_empty_cache (read _) => apply throws_read
  | |- throws_on_empty_cache (ret _) => apply throws_ret
  | |- throws_on_empty_cache (if ?b then _ else _) => destruct b
  | |- throws_on_empty_cache _ => solve [auto with paginator]
  end.

Lemma throws_count : throws_on_empty_cache (count select fraction_text).
Proof. unfold count. repeat throws_step. Qed.

Lemma throws_nextPage : throws_on_empty_cache (nextPage select fraction_text).
Proof. unfold nextPage. repeat throws_step. Qed.

Lemma throws_firstItem :
  throws_on_empty_cache (firstItem select fraction_text).
Proof. unfold firstItem. repeat throws_step. Qed.

Lemma throws_lastItem : throws_on_empty_cache (lastItem select fraction_text).
Proof. unfold lastItem. repeat throws_step. Qed.

Lemma throws_items : throws_on_empty_cache (items select fraction_text).
Proof. unfold items. repeat throws_step. Qed.

Local Hint Resolve throws_count throws_nextPage throws_firstItem
  throws_lastItem throws_items : paginator.

Lemma throws_toObject : throws_on_empty_cache (toObject select fraction_text).
Proof. unfold toObject. repeat throws_step. Qed.

Local Hint Resolve throws_toObject : paginator.

Lemma throws_call (a : Accessor) : throws_on_empty_cache (call' a).
Proof. destruct a; unfold call; repeat throws_step. Qed.

End Runs.

(** ** Construction and the page window *)

Section Construction.

Variable Row : Type.
Variable fraction_text : Qc -> string.

Local Abbreviation Pg := (Paginator Row).
Local Abbreviation query := (generatePaginationSqlSnippet fraction_text).
Local Abbreviation window := (@getLimitAndOffsetByPageAndContentPerPage Row).

Local Open Scope string_scope.

(** With a number for the page size and a number for the page, the
    constructor returns the instance below: nothing but the type is
    inspected. *)
Lemma constructor_numbers (sql : string) (params : list value)
      (n m : number) :
  constructor Row sql params (VNum n) (VNum m)
  = inr {| sqlProp := sql;
           sqlParamsProp := params;
           perPageProp := n;
           currentPageProp := as_number (Js.or (VNum m) (VNum (int 1)));
           hasNext := false;
           response := [] |}.
Proof. reflexivity. Qed.

Lemma constructor_no_page (sql : string) (params : list value)
      (n : number) (arg : value) :
  arg = VUndefined \/ arg = VNull ->
  constructor Row sql params (VNum n) arg
  = inr {| sqlProp := sql;
           sqlParamsProp := params;
           perPageProp := n;
           currentPageProp := int 1;
           hasNext := false;
           response := [] |}.
Proof. intros [-> | ->]; reflexivity. Qed.

Lemma typeof_number (v : value) :
  typeof v = "number" -> exists n, v = VNum n.
Proof. destruct v; simpl; try discriminate. intros _. eexists; reflexivity. Qed.

Lemma page_or_default (m : number) :
  truthy (VNum m) = false ->
  as_number (Js.or (VNum m) (VNum (int 1))) = int 1.
Proof. intro H. unfold Js.or. rewrite H. reflexivity. Qed.

Lemma page_or_kept (m : number) :
  truthy (VNum m) = true ->
  as_number (Js.or (VNum m) (VNum (int 1))) = m.
Proof. intro H. unfold Js.or. rewrite H. reflexivity. Qed.

(** After [currentPage || 1] a page that is not an infinity is a finite
    number. *)
Lemma page_or_finite (m : number) :
  (forall s, m <> Inf s) ->
  exists q, as_number (Js.or (VNum m) (VNum (int 1))) = Fin q.
Proof.
  intro Hfin. destruct (truthy (VNum m)) eqn:E.
  - rewrite page_or_kept by exact E.
    destruct m as [|s| |q]; try discriminate; [|eauto].
    exfalso. exact (Hfin s eq_refl).
  - rewrite page_or_default by exact E. unfold int. eauto.
Qed.

(** With a page size of 0 the offset of a finite page is a zero, of either
    sign, and prints as ["0"]. *)
Lemma zero_page_size_offset (q : Qc) :
  toString fraction_text (sub (mul (Fin q) (int 0)) (int 0)) = "0".
Proof.
  unfold mul, int.
  assert (Z0 : Qc_is_zero (q * ofZ 0) = true).
  { apply Qc_is_zero_iff. rewrite ofZ_0. ring. }
  rewrite Z0. change (Fin (ofZ 0)) with (int 0). rewrite negative_int.
  cbn [Z.ltb Z.compare xorb]. rewrite xorb_false_r.
  destruct (negative (Fin q)); cbn [signed_zero].
  - unfold sub, int. rewrite Qc_is_zero_ofZ. reflexivity.
  - unfold sub, int.
    replace (0 - ofZ 0)%Qc with (ofZ 0) by (rewrite ofZ_0; ring).
    apply (toString_int fraction_text 0). simpl. lia.
Qed.

(** The window of an integer page and page size, unless the product is a
    zero with a negative factor. *)
Lemma window_int (p : Pg) (pageNumber pageSize : Z) :
  currentPageProp p = int pageNumber ->
  perPageProp p = int pageSize ->
  (pageNumber * pageSize <> 0 \/ (0 <= pageNumber /\ 0 <= pageSize))%Z ->
  window p = {| offset := int ((pageNumber - 1) * pageSize);
                limit := int pageSize |}.
Proof.
  intros Hc Hp Hz. unfold getLimitAndOffsetByPageAndContentPerPage.
  unfold currentPage, perPage. rewrite Hc, Hp, mul_int, sub_int by exact Hz.
  do 2 f_equal. ring.
Qed.


End Construction.

(** ** The specification, claim by claim *)

Section Claims.

Variables (Row DataSource DbError : Type).
Variable select :
  DataSource -> string -> list value -> DataSource * (DbError + list Row).
Variable fraction_text : Qc -> string.

Local Abbreviation Pg := (Paginator Row).
Local Abbreviation Wd := (World DataSource).
Local Abbreviation query := (generatePaginationSqlSnippet fraction_text).
Local Abbreviation window := (@getLimitAndOffsetByPageAndContentPerPage Row).
Local Abbreviation executeQuery' := (executeQuery select fraction_text).
Local Abbreviation call' := (call select fraction_text).
Local Abbreviation call_all' := (call_all select fraction_text).

Local Open Scope string_scope.


(** C4.  The constructor fails in exactly three cases, each with its own
    code and with the offending value in the exception's payload: page size
    [undefined] (MISSING_REQUIRED_PER_PAGE), page size of another type than
    number (INVALID_TYPE_PER_PAGE), and, the page size being a number, a
    page number that is neither [null] nor of type number
    (INVALID_TYPE_CURRENT_PAGE).  In the remaining case it returns an
    instance.  The constructor is a function of its arguments: the failure
    is its result, not that of a later call. *)
Theorem constructor_errors (sql : string) (params : list value)
        (perPageArg currentPageArg : value) :
  let currentPageParam :=
    match currentPageArg with VUndefined => VNull | v => v end in
  (perPageArg = VUndefined ->
   constructor Row sql params perPageArg currentPageArg
   = inl {| message := "Missing required 'perPage'";
            code := "Services/pagination/Paginator::MISSING_REQUIRED_PER_PAGE";
            statusCode := 500;
            extra := OField "perPage" perPageArg ONil |})
  /\ (perPageArg <> VUndefined -> typeof perPageArg <> "number" ->
      constructor Row sql params perPageArg currentPageArg
      = inl {| message := "Invalid type for 'perPage'";
               code := "Services/pagination/Paginator::INVALID_TYPE_PER_PAGE";
               statusCode := 500;
               extra := OField "perPage" perPageArg ONil |})
  /\ (typeof perPageArg = "number" ->
      currentPageParam <> VNull -> typeof currentPageParam <> "number" ->
      constructor Row sql params perPageArg currentPageArg
      = inl {| message := "Invalid type for 'currentPage'";
               code :=
                 "Services/pagination/Paginator::INVALID_TYPE_CURRENT_PAGE";
               statusCode := 500;
               extra := OField "currentPage" currentPageParam ONil |})
  /\ (typeof perPageArg = "number" ->
      currentPageParam = VNull \/ typeof currentPageParam = "number" ->
      exists p : Pg,
        constructor Row sql params perPageArg currentPageArg = inr p).
Proof.
  intro cp. repeat split.
  - intros ->. reflexivity.
  - intros Hu Hn. destruct perPageArg; try reflexivity; contradiction.
  - intros Hn Hnull Hcp. apply typeof_number in Hn. destruct Hn as [n ->].
    subst cp.
    destruct currentPageArg; try reflexivity; contradiction.
  - intros Hn Hcp. apply typeof_number in Hn. destruct Hn as [n ->].
    subst cp. destruct Hcp as [Hcp | Hcp].
    + eexists. apply constructor_no_page.
      destruct currentPageArg; try discriminate; auto.
    + apply typeof_number in Hcp. destruct Hcp as [m Hm].
      destruct currentPageArg; try discriminate.
      eexists. apply constructor_numbers.
Qed.

(** C5, as amended.  When the page number is omitted, [null] or a falsy
    number (0 or NaN) and the page size is a finite number, the constructor
    returns an instance of page 1: [currentPage()] is 1 and the offset of
    its window is 0. *)
Theorem falsy_number_page_is_page_one (sql : string) (params : list value)
        (pageSize : Qc) (currentPageArg : value) :
  currentPageArg = VUndefined \/ currentPageArg = VNull
  \/ typeof currentPageArg = "number" ->
  truthy currentPageArg = false ->
  exists p : Pg,
    constructor Row sql params (VNum (Fin pageSize)) currentPageArg = inr p
    /\ currentPage p = int 1
    /\ offset (window p) = int 0.
Proof.
  intros Hk Hf.
  assert (Hz : sub (mul (int 1) (Fin pageSize)) (Fin pageSize) = int 0).
  { rewrite mul_one_l. apply sub_self. }
  destruct Hk as [Hk | [Hk | Hk]].
  - eexists. split; [apply constructor_no_page; auto|].
    split; [reflexivity | exact Hz].
  - eexists. split; [apply constructor_no_page; auto|].
    split; [reflexivity | exact Hz].
  - apply typeof_number in Hk. destruct Hk as [m ->].
    eexists. split; [apply constructor_numbers|].
    unfold getLimitAndOffsetByPageAndContentPerPage, currentPage, perPage.
    cbv beta iota delta [offset currentPageProp perPageProp].
    rewrite page_or_default by exact Hf.
    split; [reflexivity | exact Hz].
Qed.


(** C10.  Validation looks at types only.  The constructor fails iff the
    page size is [undefined] or not of type number, or the page number is
    neither [null] nor of type number.  Hence every pair of numbers is
    accepted as page size and page number, whatever their sign, integral or
    not, [NaN] and the infinities included.  A page size of 0 gives the
    window [LIMIT 1 OFFSET 0] for every page number that is not an
    infinity and [LIMIT 1 OFFSET NaN] for the two infinities, and a
    negative integer page number with a positive integer page size gives
    the negative offset [(pageNumber - 1) * pageSize], as long as its
    magnitude is at most 2^53, where the source's binary64 arithmetic is
    exact. *)
Theorem validation_is_type_only (sql : string) (params : list value)
        (perPageArg currentPageArg : value) :
  let currentPageParam :=
    match currentPageArg with VUndefined => VNull | v => v end in
  ((exists e, constructor Row sql params perPageArg currentPageArg = inl e)
   <-> (perPageArg = VUndefined \/ typeof perPageArg <> "number"
        \/ (currentPageParam <> VNull
            /\ typeof currentPageParam <> "number")))
  /\ (forall n m : number, exists p : Pg,
        constructor Row sql params (VNum n) (VNum m) = inr p
        /\ perPage p = n
        /\ (truthy (VNum m) = true -> currentPage p = m))
  /\ (forall m : number,
        (forall s : bool, m <> Inf s) ->
        exists p : Pg,
          constructor Row sql params (VNum (int 0)) (VNum m) = inr p
          /\ query p = sql ++ " LIMIT 1 OFFSET 0")
  /\ (forall s : bool, exists p : Pg,
        constructor Row sql params (VNum (int 0)) (VNum (Inf s)) = inr p
        /\ query p = sql ++ " LIMIT 1 OFFSET NaN")
  /\ (forall pageNumber pageSize : Z,
        (pageNumber < 0)%Z -> (0 < pageSize)%Z ->
        ((1 - pageNumber) * pageSize <= 2 ^ 53)%Z ->
        exists p : Pg,
          constructor Row sql params
                      (VNum (int pageSize)) (VNum (int pageNumber)) = inr p
          /\ offset (window p) = int ((pageNumber - 1) * pageSize)
          /\ ((pageNumber - 1) * pageSize < 0)%Z).
Proof.
  intro cp. split; [|split; [|split; [|split]]].
  - split.
    + intros [e He].
      destruct perPageArg; try (right; left; simpl; discriminate);
        try (left; reflexivity).
      right; right. subst cp.
      destruct currentPageArg; simpl; try discriminate He;
        split; discriminate.
    + intros [-> | [Hn | [Hnull Hcp]]].
      * eexists. reflexivity.
      * destruct perPageArg; try (eexists; reflexivity).
        exfalso. apply Hn. reflexivity.
      * destruct perPageArg; try (eexists; reflexivity).
        subst cp.
        destruct currentPageArg; try (eexists; reflexivity);
          try (exfalso; apply Hnull; reflexivity).
        exfalso. apply Hcp. reflexivity.
  - intros n m. eexists. split; [apply constructor_numbers|].
    split; [reflexivity|]. intro Ht. unfold currentPage.
    cbv beta iota delta [currentPageProp]. apply page_or_kept. exact Ht.
  - intros m Hfin. eexists. split; [apply constructor_numbers|].
    destruct (page_or_finite Hfin) as [q Hq].
    unfold generatePaginationSqlSnippet,
      getLimitAndOffsetByPageAndContentPerPage, currentPage, perPage.
    cbv beta iota zeta
        delta [offset limit currentPageProp perPageProp sqlProp].
    rewrite Hq, add_int, zero_page_size_offset.
    rewrite toString_int by (simpl; lia). reflexivity.
  - intro s. eexists. split; [apply constructor_numbers|].
    unfold generatePaginationSqlSnippet,
      getLimitAndOffsetByPageAndContentPerPage, currentPage, perPage.
    cbv beta iota zeta
        delta [offset limit currentPageProp perPageProp sqlProp].
    rewrite page_or_kept by reflexivity.
    rewrite add_int, toString_int by (simpl; lia).
    unfold mul, int, is_zero. rewrite Qc_is_zero_ofZ. reflexivity.
  - intros pageNumber pageSize Hn Hs Hb. eexists.
    split; [apply constructor_numbers|].
    assert (Hc : as_number (Js.or (VNum (int pageNumber)) (VNum (int 1)))
                 = int pageNumber).
    { apply page_or_kept. rewrite truthy_int.
      destruct (Z.eqb_spec pageNumber 0); [lia | reflexivity]. }
    match goal with |- offset (window ?p) = _ /\ _ => set (p0 := p) end.
    assert (Hcp : currentPageProp p0 = int pageNumber) by exact Hc.
    assert (Hpp : perPageProp p0 = int pageSize) by reflexivity.
    assert (Hz : (pageNumber * pageSize <> 0
                  \/ (0 <= pageNumber /\ 0 <= pageSize))%Z) by nia.
    rewrite (window_int p0 Hcp Hpp Hz). split; [reflexivity | nia].
Qed.

(** C2.  A fetch on an instance whose cache is empty.  When the data source
    answers with [k] rows and [k] is at most the page size, [items()]
    returns these rows, [count()] returns [k] and [nextPage()] returns
    [false].  When it answers with [pageSize + 1] rows, [items()] returns
    the first [pageSize] of them, [count()] returns [pageSize] and
    [nextPage()] returns [currentPage() + 1]. *)
Theorem page_of_fetch (p : Pg) (w : Wd) (d : DataSource) (rows : list Row) :
  response p = [] ->
  select (db w) (query p) (sqlParamsProp p) = (d, inr rows) ->
  let w1 := record_call w d (query p) (sqlParamsProp p) in
  (forall pageSize : Qc,
      perPage p = Fin pageSize ->
      (ofZ (Z.of_nat (List.length rows)) <= pageSize)%Qc ->
      let p1 := with_cache p false rows in
      items select fraction_text p w = (Return rows, p1, w1)
      /\ count select fraction_text p w
         = (Return (List.length rows), p1, w1)
      /\ nextPage select fraction_text p w = (Return (VBool false), p1, w1))
  /\ (forall pageSize : nat,
        perPage p = ofNat pageSize ->
        List.length rows = S pageSize ->
        let p1 := with_cache p true (firstn pageSize rows) in
        items select fraction_text p w
        = (Return (firstn pageSize rows), p1, w1)
        /\ count select fraction_text p w = (Return pageSize, p1, w1)
        /\ nextPage select fraction_text p w
           = (Return (VNum (add (currentPage p) (int 1))), p1, w1)).
Proof.
  intros Hempty Hsel w1. split.
  - intros pageSize Hp Hle p1.
    pose proof (fetched_within p rows Hp Hle) as F.
    rewrite (items_fetch_returns select fraction_text p w Hempty Hsel),
            (count_fetch_returns select fraction_text p w Hempty Hsel),
            (nextPage_fetch_returns select fraction_text p w Hempty Hsel), F.
    repeat split.
  - intros pageSize Hp Hlen p1.
    pose proof (fetched_over p rows Hp Hlen) as F.
    rewrite (items_fetch_returns select fraction_text p w Hempty Hsel),
            (count_fetch_returns select fraction_text p w Hempty Hsel),
            (nextPage_fetch_returns select fraction_text p w Hempty Hsel), F.
    assert (L : List.length (firstn pageSize rows) = pageSize)
      by (rewrite length_firstn, Hlen; lia).
    cbv beta iota delta [with_cache response hasNext]. rewrite L.
    repeat split.
Qed.

(** C3, as amended.  On an instance whose cache is empty, with a page size
    of at least 1, when the data source answers the execution with at least
    one row: every non-empty sequence of awaited accessor calls executes the
    query exactly once (the call log grows by the windowed query and nothing
    else), [count()] followed by [items()] being one such sequence; once the
    page is cached no sequence of accessor calls executes anything.  An
    instance leaves the constructor with an empty cache: nothing is executed
    before the first accessor call. *)
Theorem single_execution_on_nonempty_page
        (p : Pg) (w : Wd) (d : DataSource) (rows : list Row) (pageSize : Qc) :
  response p = [] ->
  perPage p = Fin pageSize -> (1 <= pageSize)%Qc ->
  select (db w) (query p) (sqlParamsProp p) = (d, inr rows) ->
  rows <> [] ->
  let p1 := fetched p rows in
  let w1 := record_call w d (query p) (sqlParamsProp p) in
  (forall (a : Accessor) (l : list Accessor),
      call_all' (a :: l) p w = (Return tt, p1, w1))
  /\ call_all' [Count; Items] p w = (Return tt, p1, w1)
  /\ calls w1 = (calls w ++ [(query p, sqlParamsProp p)])%list
  /\ (forall l : list Accessor, call_all' l p1 w1 = (Return tt, p1, w1))
  /\ (forall sql params perPageArg currentPageArg (p0 : Pg),
        constructor Row sql params perPageArg currentPageArg = inr p0 ->
        response p0 = [] /\ hasNext p0 = false).
Proof.
  intros Hempty Hp H1 Hsel Hne p1 w1.
  assert (Hcached : response p1 <> [])
    by exact (fetched_nonempty p Hp H1 Hne).
  assert (Hseq : forall a l, call_all' (a :: l) p w = (Return tt, p1, w1)).
  { intros a l. simpl. rewrite bind_run.
    rewrite (call_fetch_returns select fraction_text p w Hempty Hsel a Hcached).
    apply call_all_cached. exact Hcached. }
  split; [exact Hseq|]. split; [apply Hseq|]. split; [reflexivity|].
  split; [intro l; apply call_all_cached; exact Hcached|].
  intros sql params perPageArg currentPageArg p0. unfold constructor.
  repeat match goal with
         | |- context [if ?b then _ else _] => destruct b
         end; intro E; inversion E; subst; split; reflexivity.
Qed.

(** C6, as amended.  Let the page size be a finite number that is not
    negative and let the data source answer the windowed query with at most
    [pageSize + 1] rows, as the LIMIT clause asks.  Then from a new
    instance, whatever accessors are called and whether they return or
    throw, the cache holds at most [pageSize] rows afterwards. *)
Theorem cached_rows_bounded (p : Pg) (pageSize : Qc) :
  perPage p = Fin pageSize -> (0 <= pageSize)%Qc ->
  response p = [] ->
  (forall (d d' : DataSource) (rows : list Row),
      select d (query p) (sqlParamsProp p) = (d', inr rows) ->
      (ofZ (Z.of_nat (List.length rows)) <= pageSize + 1)%Qc) ->
  forall (l : list Accessor) (w : Wd) o p' w',
    call_all' l p w = (o, p', w') ->
    (ofZ (Z.of_nat (List.length (response p'))) <= pageSize)%Qc.
Proof.
  intros Hp H0 Hempty Hlimit l w o p' w' E.
  set (P := fun (q : Pg) (_ : Wd) =>
              same_settings p q
              /\ (ofZ (Z.of_nat (List.length (response q))) <= pageSize)%Qc).
  assert (Hex : preserves P executeQuery').
  { intros q v o1 q' v' [Hs Hb] E1.
    destruct (same_settings_query fraction_text Hs) as [Hq Hpp].
    destruct (executeQuery_outcomes select fraction_text q v)
      as [(d1 & e & _ & E2) | (d1 & rs & Hsel & E2)];
      rewrite E2 in E1; inversion E1; subst.
    - split; assumption.
    - split; [exact Hs|].
      apply fetched_bounded; [congruence | exact H0 |].
      apply (Hlimit (db v) d1).
      destruct Hs as (_ & Hps & _). rewrite <- Hq, <- Hps. exact Hsel. }
  assert (HP : P p w).
  { split; [apply same_settings_refl|]. rewrite Hempty. simpl.
    rewrite ofZ_0. exact H0. }
  exact (proj2 (preserves_call_all Hex l _ _ HP E)).
Qed.

(** C7.  When the data source fails during the fetch that an accessor
    triggers on an empty cache, the accessor throws that same error and the
    instance is exactly as before, cache empty; the call is in the log.  Any
    accessor called afterwards starts with a new execution of the windowed
    query.  More generally, whenever an accessor throws, in whatever state
    it was called, the cache is empty afterwards. *)
Theorem failed_fetch_is_retryable
        (p : Pg) (w : Wd) (d : DataSource) (e : DbError) (a : Accessor) :
  response p = [] ->
  select (db w) (query p) (sqlParamsProp p) = (d, inl e) ->
  let w1 := record_call w d (query p) (sqlParamsProp p) in
  call' a p w = (Throw e, p, w1)
  /\ executeQuery' p w = (Throw e, p, w1)
  /\ (forall b : Accessor, exists o p2 w2 more,
        call' b p w1 = (o, p2, w2)
        /\ calls w2 = (calls w1 ++ (query p, sqlParamsProp p) :: more)%list)
  /\ (forall (b : Accessor) (p0 : Pg) (w0 : Wd) e' p' w',
        call' b p0 w0 = (Throw e', p', w') -> response p' = []).
Proof.
  intros Hempty Hsel w1. split; [|split; [|split]].
  - exact (call_fetch_throws select fraction_text p w Hempty a Hsel).
  - apply executeQuery_throws. exact Hsel.
  - intro b. apply call_unfetched_logs. exact Hempty.
  - intros b p0 w0 e' p' w' E.
    exact (throws_call select fraction_text b _ _ E).
Qed.

Lemma same_settings_accessors (p q : Pg) :
  same_settings p q ->
  previousPage q = previousPage p
  /\ currentPage q = currentPage p
  /\ perPage q = perPage p.
Proof.
  intros (_ & _ & Hp & Hc). unfold previousPage, currentPage, perPage.
  rewrite Hp, Hc. repeat split.
Qed.

(** C9.  [toObject()] executes the query first when the cache is empty and
    not otherwise; a failure of that execution is thrown.  Its result holds
    under [count], [previous_page], [current_page], [next_page], [per_page]
    and [items] the results of [count()], [previousPage()],
    [currentPage()], [nextPage()], [perPage()] and [items()] called in this
    order on the same instance.  On a populated cache, already there or
    left by the execution, these are the values the accessors return on the
    instance as [toObject()] leaves it, and none of them executes anything. *)
Theorem toObject_summary (p : Pg) (w : Wd) :
  (response p <> [] ->
   exists c np its,
     count select fraction_text p w = (Return c, p, w)
     /\ nextPage select fraction_text p w = (Return np, p, w)
     /\ items select fraction_text p w = (Return its, p, w)
     /\ toObject select fraction_text p w
        = (Return {| Summary.count := c;
                     Summary.previous_page := previousPage p;
                     Summary.current_page := currentPage p;
                     Summary.next_page := np;
                     Summary.per_page := perPage p;
                     Summary.items := its |}, p, w))
  /\ (response p = [] ->
      forall d e,
        select (db w) (query p) (sqlParamsProp p) = (d, inl e) ->
        toObject select fraction_text p w
        = (Throw e, p, record_call w d (query p) (sqlParamsProp p)))
  /\ (response p = [] ->
      forall d rows,
        select (db w) (query p) (sqlParamsProp p) = (d, inr rows) ->
        response (fetched p rows) <> [] ->
        let p1 := fetched p rows in
        let w1 := record_call w d (query p) (sqlParamsProp p) in
        exists c np its,
          count select fraction_text p1 w1 = (Return c, p1, w1)
          /\ nextPage select fraction_text p1 w1 = (Return np, p1, w1)
          /\ items select fraction_text p1 w1 = (Return its, p1, w1)
          /\ toObject select fraction_text p w
             = (Return {| Summary.count := c;
                          Summary.previous_page := previousPage p1;
                          Summary.current_page := currentPage p1;
                          Summary.next_page := np;
                          Summary.per_page := perPage p1;
                          Summary.items := its |}, p1, w1))
  /\ (forall s p' w',
        toObject select fraction_text p w = (Return s, p', w') ->
        exists p1 w1 p2 w2 p3 w3,
          count select fraction_text p1 w1
          = (Return (Summary.count s), p2, w2)
          /\ nextPage select fraction_text p2 w2
             = (Return (Summary.next_page s), p3, w3)
          /\ items select fraction_text p3 w3
             = (Return (Summary.items s), p', w')
          /\ Summary.previous_page s = previousPage p'
          /\ Summary.current_page s = currentPage p'
          /\ Summary.per_page s = perPage p').
Proof.
  assert (Hcached : forall (q : Pg) (v : Wd), response q <> [] ->
    exists c np its,
      count select fraction_text q v = (Return c, q, v)
      /\ nextPage select fraction_text q v = (Return np, q, v)
      /\ items select fraction_text q v = (Return its, q, v)
      /\ toObject select fraction_text q v
         = (Return {| Summary.count := c;
                      Summary.previous_page := previousPage q;
                      Summary.current_page := currentPage q;
                      Summary.next_page := np;
                      Summary.per_page := perPage q;
                      Summary.items := its |}, q, v)).
  { intros q v H. eexists _, _, _.
    split; [apply count_cached; exact H|].
    split; [apply nextPage_cached; exact H|].
    split; [apply items_cached; exact H|].
    apply toObject_cached. exact H. }
  split; [apply Hcached|]. split; [|split].
  - intros Hempty d e Hsel. unfold toObject.
    rewrite guard_unfetched by exact Hempty.
    rewrite bind_run, (executeQuery_throws select fraction_text p w Hsel).
    reflexivity.
  - intros Hempty d rows Hsel Hne p1 w1.
    rewrite (toObject_fetch_returns select fraction_text p w Hempty Hsel Hne).
    apply Hcached. exact Hne.
  - intros s p' w' E.
    assert (R : exists p1 w1,
      bind (count select fraction_text) (fun c =>
      bind (read (@previousPage Row)) (fun pp =>
      bind (read (@currentPage Row)) (fun cp =>
      bind (nextPage select fraction_text) (fun np =>
      bind (read (@perPage Row)) (fun per =>
      bind (items select fraction_text) (fun its =>
      ret {| Summary.count := c;
             Summary.previous_page := pp;
             Summary.current_page := cp;
             Summary.next_page := np;
             Summary.per_page := per;
             Summary.items := its |})))))) p1 w1 = (Return s, p', w')).
    { unfold toObject in E. destruct (response p) as [|r rs] eqn:Hr.
      - rewrite guard_unfetched in E by exact Hr. rewrite bind_run in E.
        destruct (executeQuery' p w) as [[[r|e] p1] w1];
          [exists p1, w1; exact E | discriminate].
      - rewrite guard_cached in E by (rewrite Hr; discriminate).
        exists p, w. exact E. }
    destruct R as (p1 & w1 & E1). rewrite bind_run in E1.
    destruct (count select fraction_text p1 w1) as [[[c|e] p2] w2]
      eqn:Ec; [|discriminate].
    cbv beta iota delta [bind read ret] in E1.
    destruct (nextPage select fraction_text p2 w2) as [[[np|e] p3] w3]
      eqn:En; [|discriminate].
    destruct (items select fraction_text p3 w3) as [[[its|e] p4] w4]
      eqn:Ei; [|discriminate].
    inversion E1; subst; clear E1.
    pose proof (preserves_nextPage
                  (@preserves_settings _ _ _ select fraction_text p2)
                  p2 w2 (same_settings_refl p2) En) as S23.
    pose proof (preserves_items
                  (@preserves_settings _ _ _ select fraction_text p2)
                  p3 w3 S23 Ei) as S24.
    destruct (same_settings_accessors S23) as (_ & _ & A3).
    destruct (same_settings_accessors S24) as (B1 & B2 & B3).
    exists p1, w1, p2, w2, p3, w3. cbn [Summary.count Summary.next_page
      Summary.items Summary.previous_page Summary.current_page
      Summary.per_page].
    repeat split; congruence.
Qed.

End Claims.

(** ** The scenarios of the specification, evaluated *)

Section Examples.

Local Open Scope string_scope.

Local Abbreviation src := (@scripted nat string).

Example scenario_window :
  constructor nat "SELECT id FROM t" [] (VNum (int 10)) (VNum (int 2))
  = inr (example_page 10 2)
  /\ generatePaginationSqlSnippet no_fraction (example_page 10 2)
     = "SELECT id FROM t LIMIT 11 OFFSET 10".
Proof. split; reflexivity. Qed.

Example scenario_eleven_rows :
  let w := fresh_world [inr (seq 1 11)] in
  fst (fst (nextPage src no_fraction (example_page 10 2) w))
  = Return (VNum (add (int 2) (int 1)))
  /\ fst (fst (items src no_fraction (example_page 10 2) w))
     = Return (seq 1 10)
  /\ previousPage (example_page 10 2) = VNum (sub (int 2) (int 1)).
Proof. repeat split; vm_compute; reflexivity. Qed.

Example scenario_five_rows :
  let w := fresh_world [inr (seq 1 5)] in
  fst (fst (nextPage src no_fraction (example_page 10 2) w))
  = Return (VBool false)
  /\ fst (fst (count src no_fraction (example_page 10 2) w)) = Return 5%nat.
Proof. repeat split. Qed.

Example scenario_page_omitted :
  constructor nat "SELECT id FROM t" [] (VNum (int 10)) VUndefined
  = inr (example_page 10 1)
  /\ generatePaginationSqlSnippet no_fraction (example_page 10 1)
     = "SELECT id FROM t LIMIT 11 OFFSET 0".
Proof. split; reflexivity. Qed.

End Examples.

(** ** The theorems at concrete inputs *)

Section Instances.

Local Open Scope string_scope.

Local Abbreviation src := (@scripted nat string).
Local Abbreviation Src := (Script nat string).


Lemma page_of_fetch_witness :
  (let w := fresh_world [inr [7; 8]%nat] in
   items src no_fraction (example_page 2 1) w
   = (Return [7; 8]%nat, with_cache (example_page 2 1) false [7; 8]%nat,
      record_call w []
        (generatePaginationSqlSnippet no_fraction (example_page 2 1)) []))
  /\ (let w := fresh_world [inr [7; 8; 9]%nat] in
      nextPage src no_fraction (example_page 2 1) w
      = (Return (VNum (add (int 1) (int 1))),
         with_cache (example_page 2 1) true [7; 8]%nat,
         record_call w []
           (generatePaginationSqlSnippet no_fraction (example_page 2 1)) [])).
Proof.
  split.
  - intro w.
    destruct (@page_of_fetch nat Src string src no_fraction
                (example_page 2 1) w [] [7; 8]%nat eq_refl eq_refl)
      as [H _].
    destruct (H (ofZ 2) eq_refl) as (Hi & _ & _).
    + apply ofZ_le. simpl. lia.
    + exact Hi.
  - intro w.
    destruct (@page_of_fetch nat Src string src no_fraction
                (example_page 2 1) w [] [7; 8; 9]%nat eq_refl eq_refl)
      as [_ H].
    destruct (H 2%nat eq_refl eq_refl) as (_ & _ & Hn). exact Hn.
Defined.

(** C3 fails on an empty page.  The data source answers both executions
    with zero rows; [count()] then [items()] on a new instance both return,
    and the query has been executed twice. *)
Lemma empty_page_is_fetched_again :
  constructor nat "SELECT id FROM t" [] (VNum (int 10)) VUndefined
  = inr (example_page 10 1)
  /\ exists p' w',
      call_all src no_fraction [Count; Items] (example_page 10 1)
               (fresh_world [inr []; inr []])
      = (Return tt, p', w')
      /\ calls w'
         = [("SELECT id FROM t LIMIT 11 OFFSET 0", []);
            ("SELECT id FROM t LIMIT 11 OFFSET 0", [])].
Proof.
  split; [reflexivity|]. eexists _, _. split; reflexivity.
Qed.

Lemma single_execution_on_nonempty_page_witness :
  let w := fresh_world [inr [7; 8]%nat] in
  exists p' w',
    call_all src no_fraction [Count; Items] (example_page 10 1) w
    = (Return tt, p', w')
    /\ calls w' = [("SELECT id FROM t LIMIT 11 OFFSET 0", [])].
Proof.
  intro w.
  assert (H1 : (1 <= ofZ 10)%Qc) by (rewrite <- ofZ_1; apply ofZ_le; lia).
  assert (Hne : [7; 8]%nat <> []) by discriminate.
  destruct (@single_execution_on_nonempty_page nat Src string src
              no_fraction (example_page 10 1) w [] [7; 8]%nat (ofZ 10)
              eq_refl eq_refl H1 eq_refl Hne)
    as (_ & H & _).
  eexists _, _. split; [exact H | reflexivity].
Defined.

Lemma constructor_errors_witness :
  (exists e, constructor nat "SELECT id FROM t" [] VUndefined VUndefined
             = inl e
             /\ code e
                = "Services/pagination/Paginator::MISSING_REQUIRED_PER_PAGE"
             /\ extra e = OField "perPage" VUndefined ONil)
  /\ (exists e, constructor nat "SELECT id FROM t" [] (VStr "10") VUndefined
                = inl e
                /\ code e
                   = "Services/pagination/Paginator::INVALID_TYPE_PER_PAGE"
                /\ extra e = OField "perPage" (VStr "10") ONil)
  /\ (exists e, constructor nat "SELECT id FROM t" []
                            (VNum (int 10)) (VStr "2")
                = inl e
                /\ code e
                   = "Services/pagination/Paginator::INVALID_TYPE_CURRENT_PAGE"
                /\ extra e = OField "currentPage" (VStr "2") ONil)
  /\ (exists p, constructor nat "SELECT id FROM t" []
                            (VNum (int 10)) VNull = inr p).
Proof.
  split; [|split; [|split]].
  - destruct (constructor_errors nat "SELECT id FROM t" []
                VUndefined VUndefined) as (H & _).
    eexists. split; [exact (H eq_refl)|]. split; reflexivity.
  - destruct (constructor_errors nat "SELECT id FROM t" []
                (VStr "10") VUndefined) as (_ & H & _).
    eexists. split; [apply H; discriminate|]. split; reflexivity.
  - destruct (constructor_errors nat "SELECT id FROM t" []
                (VNum (int 10)) (VStr "2")) as (_ & _ & H & _).
    eexists. split; [apply H; [reflexivity | discriminate | discriminate]|].
    split; reflexivity.
  - destruct (constructor_errors nat "SELECT id FROM t" []
                (VNum (int 10)) VNull) as (_ & _ & _ & H).
    apply H; [reflexivity | left; reflexivity].
Defined.

(** C5 fails on a falsy page number that is not a number, and on a page
    size that is not finite: [false] is rejected by the constructor, and
    with the page size [NaN] the offset of page 1 is [NaN]. *)
Lemma falsy_page_number_rejected :
  (truthy (VBool false) = false
   /\ constructor nat "SELECT id FROM t" [] (VNum (int 10)) (VBool false)
      = inl {| message := "Invalid type for 'currentPage'";
               code :=
                 "Services/pagination/Paginator::INVALID_TYPE_CURRENT_PAGE";
               statusCode := 500;
               extra := OField "currentPage" (VBool false) ONil |})
  /\ (exists p : Paginator nat,
         constructor nat "SELECT id FROM t" [] (VNum NaN) VUndefined = inr p
         /\ currentPage p = int 1
         /\ offset (getLimitAndOffsetByPageAndContentPerPage p) = NaN
         /\ NaN <> int 0).
Proof.
  split; [split; reflexivity|].
  eexists. split; [reflexivity|]. repeat split. discriminate.
Qed.

Lemma falsy_number_page_is_page_one_witness :
  exists p : Paginator nat,
    constructor nat "SELECT id FROM t" [] (VNum (Fin (ofZ 10))) (VNum (int 0))
    = inr p
    /\ currentPage p = int 1
    /\ offset (getLimitAndOffsetByPageAndContentPerPage p) = int 0.
Proof.
  apply falsy_number_page_is_page_one.
  - right; right. reflexivity.
  - rewrite truthy_int. reflexivity.
Defined.

(** C6 fails when the answer is longer than the LIMIT clause asks, since
    [executeQuery] removes one row only: with a page size of 2 and four rows
    returned, three rows are cached.  It also fails on a negative page
    size: with the page size -1 the window is [LIMIT 0 OFFSET 0], and the
    zero rows cached are more than -1. *)
Lemma overlong_answer_exceeds_page_size :
  (let r := call_all src no_fraction [Items] (example_page 2 1)
                     (fresh_world [inr [7; 8; 9; 10]%nat]) in
   fst (fst r) = Return tt
   /\ response (snd (fst r)) = [7; 8; 9]%nat
   /\ perPage (snd (fst r)) = int 2
   /\ ~ (ofZ (Z.of_nat 3) <= ofZ 2)%Qc)
  /\ (let r := call_all src no_fraction [Items] (example_page (-1) 1)
                        (fresh_world [inr []]) in
      fst (fst r) = Return tt
      /\ calls (snd r) = [("SELECT id FROM t LIMIT 0 OFFSET 0", [])]
      /\ response (snd (fst r)) = []
      /\ perPage (snd (fst r)) = int (-1)
      /\ ~ (ofZ (Z.of_nat 0) <= ofZ (-1))%Qc).
Proof.
  split; intro r.
  - repeat split; try reflexivity.
    intro H. apply (proj1 (ofZ_le _ _)) in H. simpl in H. lia.
  - repeat split; try reflexivity.
    intro H. apply (proj1 (ofZ_le _ _)) in H. simpl in H. lia.
Qed.

Lemma cached_rows_bounded_witness :
  (ofZ (Z.of_nat
          (List.length
             (response
                (snd (fst (call_all (capped 3) no_fraction
                                    [Count; Items; ToObject]
                                    (example_page 2 1)
                                    {| db := 10%nat; calls := [] |}))))))
   <= ofZ 2)%Qc.
Proof.
  assert (H0 : (0 <= ofZ 2)%Qc) by (rewrite <- ofZ_0; apply ofZ_le; lia).
  assert (Hl : forall (d d' : nat) (rows : list nat),
             capped 3 d
               (generatePaginationSqlSnippet no_fraction (example_page 2 1))
               (sqlParamsProp (example_page 2 1)) = (d', inr rows) ->
             (ofZ (Z.of_nat (List.length rows)) <= ofZ 2 + 1)%Qc).
  { intros d d' rows E. unfold capped in E. inversion E; subst.
    rewrite <- ofZ_1, ofZ_add. apply ofZ_le. rewrite length_seq. lia. }
  pose proof (@cached_rows_bounded nat nat string (capped 3) no_fraction
                (example_page 2 1) (ofZ 2) eq_refl H0 eq_refl Hl
                [Count; Items; ToObject] {| db := 10%nat; calls := [] |})
    as B.
  destruct (call_all (capped 3) no_fraction [Count; Items; ToObject]
                     (example_page 2 1) {| db := 10%nat; calls := [] |})
    as [[o p'] w'] eqn:E.
  exact (B o p' w' eq_refl).
Defined.

Lemma failed_fetch_is_retryable_witness :
  let p := example_page 10 1 in
  let w := fresh_world [inl "down"; inr [7]%nat] in
  let q := generatePaginationSqlSnippet no_fraction p in
  let w1 := record_call w [inr [7]%nat] q [] in
  call src no_fraction Count p w = (Throw "down", p, w1)
  /\ exists o p2 w2 more,
      call src no_fraction Items p w1 = (o, p2, w2)
      /\ calls w2 = (calls w1 ++ (q, []) :: more)%list.
Proof.
  intros p w q w1.
  destruct (@failed_fetch_is_retryable nat Src string src no_fraction
              p w [inr [7]%nat] "down" Count eq_refl eq_refl)
    as (H1 & _ & H2 & _).
  split; [exact H1 | exact (H2 Items)].
Defined.


Lemma toObject_summary_witness :
  let p := example_page 2 1 in
  let w := fresh_world [inr [7; 8; 9]%nat] in
  let p1 := fetched p [7; 8; 9]%nat in
  let w1 := record_call w [] (generatePaginationSqlSnippet no_fraction p) [] in
  exists c np its,
    count src no_fraction p1 w1 = (Return c, p1, w1)
    /\ nextPage src no_fraction p1 w1 = (Return np, p1, w1)
    /\ items src no_fraction p1 w1 = (Return its, p1, w1)
    /\ toObject src no_fraction p w
       = (Return {| Summary.count := c;
                    Summary.previous_page := previousPage p1;
                    Summary.current_page := currentPage p1;
                    Summary.next_page := np;
                    Summary.per_page := perPage p1;
                    Summary.items := its |}, p1, w1).
Proof.
  intros p w p1 w1.
  destruct (@toObject_summary nat Src string src no_fraction p w)
    as (_ & _ & H & _).
  apply (H eq_refl [] [7; 8; 9]%nat eq_refl).
  vm_compute. discriminate.
Defined.

Lemma validation_is_type_only_witness :
  (exists e, constructor nat "SELECT id FROM t" [] (VStr "10") (VNum (int 1))
             = inl e)
  /\ (exists p : Paginator nat,
         constructor nat "SELECT id FROM t" []
                     (VNum (Fin (Q2Qc (5 # 2)))) (VNum (Inf false))
         = inr p
         /\ perPage p = Fin (Q2Qc (5 # 2))
         /\ currentPage p = Inf false)
  /\ (exists p : Paginator nat,
         constructor nat "SELECT id FROM t" [] (VNum (int 0)) (VNum (int (-3)))
         = inr p
         /\ generatePaginationSqlSnippet no_fraction p
            = "SELECT id FROM t LIMIT 1 OFFSET 0")
  /\ (exists p : Paginator nat,
         constructor nat "SELECT id FROM t" []
                     (VNum (int 0)) (VNum (Inf false)) = inr p
         /\ generatePaginationSqlSnippet no_fraction p
            = "SELECT id FROM t LIMIT 1 OFFSET NaN")
  /\ (exists p : Paginator nat,
         constructor nat "SELECT id FROM t" []
                     (VNum (int 10)) (VNum (int (-1))) = inr p
         /\ offset (getLimitAndOffsetByPageAndContentPerPage p)
            = int ((-1 - 1) * 10)
         /\ ((-1 - 1) * 10 < 0)%Z).
Proof.
  split; [|split; [|split; [|split]]].
  - destruct (@validation_is_type_only nat no_fraction "SELECT id FROM t" []
                (VStr "10") (VNum (int 1))) as ((_ & H) & _).
    apply H. right; left. discriminate.
  - destruct (@validation_is_type_only nat no_fraction "SELECT id FROM t" []
                VNull VNull) as (_ & H & _).
    destruct (H (Fin (Q2Qc (5 # 2))) (Inf false)) as (p & Hc & Hp & Hcp).
    exists p. split; [exact Hc|]. split; [exact Hp | exact (Hcp eq_refl)].
  - destruct (@validation_is_type_only nat no_fraction "SELECT id FROM t" []
                VNull VNull) as (_ & _ & H & _).
    apply H. intro s. discriminate.
  - destruct (@validation_is_type_only nat no_fraction "SELECT id FROM t" []
                VNull VNull) as (_ & _ & _ & H & _).
    apply H.
  - destruct (@validation_is_type_only nat no_fraction "SELECT id FROM t" []
                VNull VNull) as (_ & _ & _ & _ & H).
    apply H; lia.
Defined.

End Instances.

(** ** Further properties of the class *)

Section Further.

Variables (Row DataSource DbError : Type).
Variable select :
  DataSource -> string -> list value -> DataSource * (DbError + list Row).
Variable fraction_text : Qc -> string.

Local Abbreviation Pg := (Paginator Row).
Local Abbreviation Wd := (World DataSource).
Local Abbreviation query := (generatePaginationSqlSnippet fraction_text).
Local Abbreviation window := (@getLimitAndOffsetByPageAndContentPerPage Row).
Local Abbreviation executeQuery' := (executeQuery select fraction_text).
Local Abbreviation call_all' := (call_all select fraction_text).

Lemma removelast_split (rows : list Row) :
  rows <> [] -> exists a, rows = removelast rows ++ [a].
Proof.
  intro H. destruct (exists_last H) as (l' & a & ->).
  exists a. rewrite removelast_last. reflexivity.
Qed.

(** X1.  [executeQuery] keeps the rows in the order of the answer and
    removes at most the last one: the page it caches and returns is a
    prefix of the answer, the whole answer when [hasNext] is false and the
    answer without its last row when [hasNext] is true.  It does so
    whatever the cache held before. *)
Theorem page_is_prefix_of_answer
        (p : Pg) (w : Wd) (d : DataSource) (rows : list Row) :
  select (db w) (query p) (sqlParamsProp p) = (d, inr rows) ->
  exists (p' : Pg) (dropped : list Row),
    executeQuery' p w
    = (Return (response p'), p',
       record_call w d (query p) (sqlParamsProp p))
    /\ rows = response p' ++ dropped
    /\ (List.length dropped <= 1)%nat
    /\ (hasNext p' = false -> dropped = [])
    /\ (hasNext p' = true -> rows <> [] -> List.length dropped = 1%nat).
Proof.
  intro Hsel. rewrite (executeQuery_returns select fraction_text p w Hsel).
  unfold fetched.
  destruct (gt (ofNat (List.length rows)) (perPage p)) eqn:G.
  - destruct rows as [|r rs].
    + exists (with_cache p true []), [].
      split; [reflexivity|]. split; [reflexivity|]. split; [simpl; lia|].
      split; [discriminate|]. intros _ H. contradiction.
    + destruct (@removelast_split (r :: rs)) as [a Ha]; [discriminate|].
      exists (with_cache p true (removelast (r :: rs))), [a].
      split; [reflexivity|]. split; [exact Ha|]. split; [simpl; lia|].
      split; [discriminate|]. intros _ _. reflexivity.
  - exists (with_cache p false rows), [].
    split; [reflexivity|].
    split; [symmetry; apply app_nil_r|]. split; [simpl; lia|].
    split; [reflexivity|]. discriminate.
Qed.

(** X2.  The over-fetch test in general.  On an empty cache, when the
    answer has more rows than a finite page size, however many more,
    [nextPage()] returns [currentPage() + 1], and [items()] and [count()]
    show the answer without its last row.  When the page size is [NaN] the
    comparison is false for every answer: [nextPage()] returns [false] and
    the page is the whole answer. *)
Theorem overfetch_decides_next_page
        (p : Pg) (w : Wd) (d : DataSource) (rows : list Row) :
  response p = [] ->
  select (db w) (query p) (sqlParamsProp p) = (d, inr rows) ->
  let w1 := record_call w d (query p) (sqlParamsProp p) in
  (forall pageSize : Qc,
      perPage p = Fin pageSize ->
      (pageSize < ofZ (Z.of_nat (List.length rows)))%Qc ->
      let p1 := with_cache p true (removelast rows) in
      nextPage select fraction_text p w
      = (Return (VNum (add (currentPage p) (int 1))), p1, w1)
      /\ items select fraction_text p w = (Return (removelast rows), p1, w1)
      /\ count select fraction_text p w
         = (Return (Nat.pred (List.length rows)), p1, w1))
  /\ (perPage p = NaN ->
      let p1 := with_cache p false rows in
      nextPage select fraction_text p w = (Return (VBool false), p1, w1)
      /\ items select fraction_text p w = (Return rows, p1, w1)
      /\ count select fraction_text p w
         = (Return (List.length rows), p1, w1)).
Proof.
  intros Hempty Hsel w1.
  rewrite (items_fetch_returns select fraction_text p w Hempty Hsel),
          (count_fetch_returns select fraction_text p w Hempty Hsel),
          (nextPage_fetch_returns select fraction_text p w Hempty Hsel).
  split.
  - intros pageSize Hp Hlt p1.
    assert (F : fetched p rows = p1).
    { unfold fetched. rewrite Hp.
      assert (G : gt (ofNat (List.length rows)) (Fin pageSize) = true)
        by (apply Qc_ltb_lt; exact Hlt).
      rewrite G. reflexivity. }
    rewrite F. cbv beta iota delta [p1 with_cache response hasNext].
    rewrite length_removelast. repeat split.
  - intros Hp p1.
    assert (F : fetched p rows = p1).
    { unfold fetched. rewrite Hp. reflexivity. }
    rewrite F. repeat split.
Qed.

(** X3.  [firstItem()] and [lastItem()] after a fetch on an empty cache,
    for a page size of at least 1.  [firstItem()] is the first row of the
    answer, [undefined] when the answer is empty.  [lastItem()] is the last
    row of the answer when the answer fits the page, [undefined] when it is
    empty, and the row before the last one when the answer is longer than
    the page: the over-fetched row is never shown. *)
Theorem first_and_last_item_of_fetch
        (p : Pg) (w : Wd) (d : DataSource) (rows : list Row)
        (pageSize : Qc) :
  response p = [] ->
  select (db w) (query p) (sqlParamsProp p) = (d, inr rows) ->
  perPage p = Fin pageSize -> (1 <= pageSize)%Qc ->
  let w1 := record_call w d (query p) (sqlParamsProp p) in
  firstItem select fraction_text p w
  = (Return (hd_error rows), fetched p rows, w1)
  /\ ((ofZ (Z.of_nat (List.length rows)) <= pageSize)%Qc ->
      lastItem select fraction_text p w
      = (Return (nth_error rows (Nat.pred (List.length rows))),
         fetched p rows, w1))
  /\ ((pageSize < ofZ (Z.of_nat (List.length rows)))%Qc ->
      lastItem select fraction_text p w
      = (Return (nth_error rows (List.length rows - 2)),
         fetched p rows, w1)
      /\ (2 <= List.length rows)%nat).
Proof.
  intros Hempty Hsel Hp H1 w1.
  rewrite (firstItem_fetch_returns select fraction_text p w Hempty Hsel),
          (lastItem_fetch_returns select fraction_text p w Hempty Hsel).
  assert (Hover : (pageSize < ofZ (Z.of_nat (List.length rows)))%Qc ->
                  (2 <= List.length rows)%nat
                  /\ response (fetched p rows) = removelast rows).
  { intro Hlt. split.
    - assert (L : (1 < Z.of_nat (List.length rows))%Z).
      { apply ofZ_lt. rewrite ofZ_1.
        apply Qcle_lt_trans with pageSize; assumption. }
      lia.
    - unfold fetched. rewrite Hp.
      assert (G : gt (ofNat (List.length rows)) (Fin pageSize) = true)
        by (apply Qc_ltb_lt; exact Hlt).
      rewrite G. reflexivity. }
  assert (Hfit : (ofZ (Z.of_nat (List.length rows)) <= pageSize)%Qc ->
                 response (fetched p rows) = rows).
  { intro Hle. rewrite (fetched_within p rows Hp Hle). reflexivity. }
  split; [|split].
  - destruct (Qclt_le_dec pageSize (ofZ (Z.of_nat (List.length rows))))
      as [Hlt | Hle].
    + destruct (Hover Hlt) as [L ->].
      destruct rows as [|a [|b rs]]; simpl in L; try lia. reflexivity.
    + rewrite (Hfit Hle). destruct rows; reflexivity.
  - intro Hle. rewrite (Hfit Hle). destruct rows; reflexivity.
  - intro Hlt. destruct (Hover Hlt) as [L ->]. split; [|exact L].
    rewrite length_removelast.
    destruct (List.length rows) as [|[|n]] eqn:E; try lia.
    cbv beta iota delta [Nat.pred].
    rewrite removelast_firstn_len, E, nth_error_firstn.
    replace (S (S n) - 2)%nat with n by lia.
    cbv beta iota delta [Nat.pred].
    destruct (Nat.ltb_spec n (S n)); [reflexivity | lia].
Qed.

(** X4.  What the constructor keeps.  An instance that the constructor
    returns holds the query and the parameters it was given, and the page
    size argument was the number it holds.  Its page number is a number
    that is neither [NaN] nor a zero: the page argument when that is such
    a number, finite or infinite, and 1 in every other accepted case. *)
Theorem constructed_instance
        (sql : string) (params : list value)
        (perPageArg currentPageArg : value) (p : Pg) :
  constructor Row sql params perPageArg currentPageArg = inr p ->
  sqlProp p = sql
  /\ sqlParamsProp p = params
  /\ perPageArg = VNum (perPage p)
  /\ truthy (VNum (currentPage p)) = true
  /\ (currentPageArg = VNum (currentPage p)
      \/ (currentPage p = int 1 /\ truthy currentPageArg = false)).
Proof.
  intro H.
  destruct perPageArg as [| | |n| | |]; try discriminate H.
  assert (One : truthy (VNum (int 1)) = true)
    by (rewrite truthy_int; reflexivity).
  destruct currentPageArg as [| | |m| | |]; try discriminate H.
  - rewrite constructor_no_page in H by auto. inversion H; subst.
    do 3 (split; [reflexivity|]). split; [exact One|].
    right; split; reflexivity.
  - rewrite constructor_no_page in H by auto. inversion H; subst.
    do 3 (split; [reflexivity|]). split; [exact One|].
    right; split; reflexivity.
  - rewrite constructor_numbers in H. inversion H; subst. clear H.
    do 3 (split; [reflexivity|]).
    unfold currentPage. cbn [currentPageProp].
    destruct (truthy (VNum m)) eqn:T.
    + rewrite page_or_kept by exact T.
      split; [exact T | left; reflexivity].
    + rewrite page_or_default by exact T.
      split; [exact One | right; split; reflexivity].
Qed.

(** X5.  Consecutive pages tile the result.  For an integer page of at
    least 1 and an integer page size that is not negative, take the number
    that [nextPage()] returns on the page, [currentPage() + 1], as the page
    of a new instance with the same page size.  As long as the numbers
    involved stay within 2^53, where the source's binary64 arithmetic is
    exact, the new instance is on the next page and its window starts where
    the window of the first one ends, at [offset + limit]. *)
Theorem next_page_window_follows
        (p : Pg) (page pageSize : Z) (sql : string) (params : list value) :
  currentPage p = int page -> perPage p = int pageSize ->
  (1 <= page)%Z -> (0 <= pageSize)%Z ->
  (page + 1 <= 2 ^ 53)%Z -> ((page + 1) * pageSize <= 2 ^ 53)%Z ->
  exists p' : Pg,
    constructor Row sql params (VNum (perPage p))
                (VNum (add (currentPage p) (int 1))) = inr p'
    /\ currentPage p' = int (page + 1)
    /\ limit (window p') = limit (window p)
    /\ offset (window p') = add (offset (window p)) (limit (window p))
    /\ offset (window p') = int (page * pageSize).
Proof.
  intros Hc Hp H1 H0 Hb1 Hb2. rewrite constructor_numbers.
  eexists. split; [reflexivity|].
  assert (Hn : add (currentPage p) (int 1) = int (page + 1))
    by (rewrite Hc; apply add_int).
  match goal with |- currentPage ?r = _ /\ _ => set (p' := r) end.
  assert (Hc' : currentPageProp p' = int (page + 1)).
  { unfold p'. cbn [currentPageProp]. rewrite Hn.
    apply page_or_kept. rewrite truthy_int.
    destruct (Z.eqb_spec (page + 1) 0); [lia | reflexivity]. }
  assert (Hp' : perPageProp p' = int pageSize) by exact Hp.
  rewrite (@window_int Row p' (page + 1) pageSize Hc' Hp') by lia.
  rewrite (@window_int Row p page pageSize Hc Hp) by lia.
  cbn [offset limit]. rewrite add_int.
  split; [exact Hc'|]. split; [reflexivity|].
  split; f_equal; ring.
Qed.

(** X6.  Navigation goes back and forth.  For an integer page from 1 and
    below 2^53 (where [+ 1] and [- 1] are exact in binary64): the page that
    [nextPage()] names has this page as its [previousPage()]; and, from a
    page above 1, the page that [previousPage()] names has this page as its
    [currentPage() + 1], the value its [nextPage()] returns when there is a
    next page. *)
Theorem navigation_round_trip
        (p : Pg) (page : Z) (sql : string) (params : list value)
        (n : number) :
  currentPage p = int page -> (1 <= page)%Z -> (page < 2 ^ 53)%Z ->
  (exists p' : Pg,
      constructor Row sql params (VNum n)
                  (VNum (add (currentPage p) (int 1))) = inr p'
      /\ previousPage p' = VNum (currentPage p))
  /\ ((1 < page)%Z ->
      exists p' : Pg,
        constructor Row sql params (VNum n) (previousPage p) = inr p'
        /\ add (currentPage p') (int 1) = currentPage p).
Proof.
  intros Hc H1 Hb. split.
  - rewrite constructor_numbers. eexists. split; [reflexivity|].
    unfold previousPage, currentPage in *. cbn [currentPageProp].
    rewrite Hc, add_int.
    rewrite page_or_kept
      by (rewrite truthy_int;
          destruct (Z.eqb_spec (page + 1) 0); [lia | reflexivity]).
    rewrite gt_int, sub_int.
    destruct (Z.ltb_spec 1 (page + 1)); [|lia].
    do 2 f_equal. ring.
  - intro H2.
    assert (Hprev : previousPage p = VNum (int (page - 1))).
    { unfold previousPage. rewrite Hc, gt_int, sub_int.
      destruct (Z.ltb_spec 1 page); [reflexivity | lia]. }
    rewrite Hprev, constructor_numbers. eexists. split; [reflexivity|].
    unfold currentPage in *. cbn [currentPageProp].
    rewrite page_or_kept
      by (rewrite truthy_int;
          destruct (Z.eqb_spec (page - 1) 0); [lia | reflexivity]).
    rewrite Hc, add_int. f_equal. ring.
Qed.

(** X7.  One instance, one query.  Whatever accessors are called and
    however often they execute, every call the instance makes to the data
    source carries the same windowed text and the bind parameters of the
    constructor, and the page number, the page size and [previousPage()]
    stay what they were. *)
Theorem every_execution_sends_the_same_query
        (p : Pg) (l : list Accessor) (w : Wd)
        (o : Outcome DbError unit) (p' : Pg) (w' : Wd) :
  call_all' l p w = (o, p', w') ->
  currentPage p' = currentPage p
  /\ perPage p' = perPage p
  /\ previousPage p' = previousPage p
  /\ query p' = query p
  /\ sqlParamsProp p' = sqlParamsProp p
  /\ exists n : nat,
      calls w' = calls w ++ repeat (query p, sqlParamsProp p) n.
Proof.
  intro E.
  set (P := fun (q : Pg) (v : Wd) =>
              same_settings p q
              /\ exists n : nat,
                  calls v = calls w ++ repeat (query p, sqlParamsProp p) n).
  assert (Hex : preserves P executeQuery').
  { intros q v o1 q' v' [Hs [n Hn]] E1. split.
    - exact (@preserves_settings _ _ _ select fraction_text p q v _ _ _
               Hs E1).
    - destruct (executeQuery_logs select fraction_text q v)
        as (o2 & q2 & d & E2).
      rewrite E2 in E1. inversion E1; subst.
      destruct (same_settings_query fraction_text Hs) as [Hq _].
      destruct Hs as (_ & Hps & _).
      exists (S n). unfold record_call. cbn [calls].
      rewrite Hn, Hq, Hps, <- app_assoc. f_equal.
      cbn [repeat]. symmetry. apply repeat_cons. }
  assert (HP : P p w).
  { split; [apply same_settings_refl|]. exists 0%nat.
    symmetry. apply app_nil_r. }
  destruct (preserves_call_all Hex l _ _ HP E) as [Hs Hlog].
  destruct (same_settings_query fraction_text Hs) as [Hq Hpp].
  destruct Hs as (_ & Hps & Hper & Hcp).
  unfold previousPage, currentPage, perPage in *.
  rewrite Hcp. repeat split; assumption.
Qed.

(** X8.  A summary of an empty page costs four executions.  When the data
    source answers the windowed query with zero rows every time and the
    page size is not negative, [toObject()] on an empty cache executes the
    query four times, once for its own guard and once for each of
    [count()], [nextPage()] and [items()], and returns the summary of an
    empty page without a next page. *)
Theorem summary_of_empty_page_executes_four_times
        (p : Pg) (w : Wd) (pageSize : Qc) :
  response p = [] ->
  perPage p = Fin pageSize -> (0 <= pageSize)%Qc ->
  (forall d : DataSource,
      snd (select d (query p) (sqlParamsProp p)) = inr []) ->
  exists d' : DataSource,
    toObject select fraction_text p w
    = (Return {| Summary.count := 0;
                 Summary.previous_page := previousPage p;
                 Summary.current_page := currentPage p;
                 Summary.next_page := VBool false;
                 Summary.per_page := perPage p;
                 Summary.items := [] |},
       with_cache p false [],
       {| db := d';
          calls := calls w ++ repeat (query p, sqlParamsProp p) 4 |}).
Proof.
  intros Hempty Hp H0 Hsrc.
  set (p0 := with_cache p false []).
  assert (Hfetch : forall q : Pg,
             perPage q = Fin pageSize -> fetched q [] = with_cache q false []).
  { intros q Hq. apply (fetched_within q [] Hq).
    cbn [List.length Z.of_nat]. rewrite ofZ_0. exact H0. }
  assert (Hsel : forall (v : Wd) (q : Pg),
             query q = query p -> sqlParamsProp q = sqlParamsProp p ->
             exists d, select (db v) (query q) (sqlParamsProp q)
                       = (d, inr [])).
  { intros v q Hq Hps. rewrite Hq, Hps.
    pose proof (Hsrc (db v)) as S.
    destruct (select (db v) (query p) (sqlParamsProp p)) as [d r].
    cbn [snd] in S. subst r. exists d. reflexivity. }
  destruct (Hsel w p eq_refl eq_refl) as [d1 S1].
  set (w1 := record_call w d1 (query p) (sqlParamsProp p)).
  destruct (Hsel w1 p0 eq_refl eq_refl) as [d2 S2].
  set (w2 := record_call w1 d2 (query p) (sqlParamsProp p)).
  destruct (Hsel w2 p0 eq_refl eq_refl) as [d3 S3].
  set (w3 := record_call w2 d3 (query p) (sqlParamsProp p)).
  destruct (Hsel w3 p0 eq_refl eq_refl) as [d4 S4].
  exists d4.
  unfold toObject. rewrite guard_unfetched by exact Hempty.
  rewrite bind_run, (executeQuery_returns select fraction_text p w S1).
  rewrite (Hfetch p Hp). fold p0 w1.
  rewrite bind_run,
    (count_fetch_returns select fraction_text p0 w1 eq_refl S2).
  rewrite (Hfetch p0 Hp).
  change (record_call w1 d2 (query p0) (sqlParamsProp p0)) with w2.
  change (with_cache p0 false []) with p0.
  cbv beta iota delta [bind read].
  rewrite (nextPage_fetch_returns select fraction_text p0 w2 eq_refl S3).
  rewrite (Hfetch p0 Hp).
  change (record_call w2 d3 (query p0) (sqlParamsProp p0)) with w3.
  change (with_cache p0 false []) with p0.
  rewrite (items_fetch_returns select fraction_text p0 w3 eq_refl S4).
  rewrite (Hfetch p0 Hp).
  change (with_cache p0 false []) with p0.
  unfold ret, w3, w2, w1, record_call. cbn [calls db hasNext response p0
    with_cache].
  rewrite <- !app_assoc. reflexivity.
Qed.

(** X9.  Windows of different pages do not overlap.  For one page size
    that is a non-negative integer and two integer pages [1 <= m < n], with
    [n] and [n * pageSize] at most 2^53 (where the source's binary64
    arithmetic is exact), the window of page [m] starts at a non-negative
    offset and ends, [limit] rows later, at or before the offset of page
    [n]. *)
Theorem windows_do_not_overlap (p p' : Pg) (pageSize m n : Z) :
  perPage p = int pageSize -> perPage p' = int pageSize ->
  currentPage p = int m -> currentPage p' = int n ->
  (0 <= pageSize)%Z -> (1 <= m)%Z -> (m < n)%Z ->
  (n <= 2 ^ 53)%Z -> (n * pageSize <= 2 ^ 53)%Z ->
  exists a b : Z,
    offset (window p) = int a
    /\ offset (window p') = int b
    /\ add (offset (window p)) (limit (window p)) = int (a + pageSize)
    /\ (0 <= a)%Z
    /\ (a + pageSize <= b)%Z.
Proof.
  intros Hp Hp' Hc Hc' H0 Hm Hmn Hn Hb.
  rewrite (window_int p Hc Hp), (window_int p' Hc' Hp') by lia.
  exists ((m - 1) * pageSize)%Z, ((n - 1) * pageSize)%Z.
  cbn [offset limit]. rewrite add_int.
  repeat split; nia.
Qed.

(** X10.  The accessors agree on a cached page.  When the cache is not
    empty, [items()] returns it, [count()] its length, [firstItem()] its
    first row and [lastItem()] its last row, neither of them [undefined],
    and none of the four calls changes the instance or reaches the data
    source. *)
Theorem accessors_agree_on_cached_page (p : Pg) (w : Wd) :
  response p <> [] ->
  exists (a b : Row) (front back : list Row),
    response p = a :: back
    /\ response p = front ++ [b]
    /\ items select fraction_text p w = (Return (response p), p, w)
    /\ count select fraction_text p w
       = (Return (S (List.length back)), p, w)
    /\ firstItem select fraction_text p w = (Return (Some a), p, w)
    /\ lastItem select fraction_text p w = (Return (Some b), p, w).
Proof.
  intro H.
  rewrite (items_cached select fraction_text p w H),
          (count_cached select fraction_text p w H),
          (firstItem_cached select fraction_text p w H),
          (lastItem_cached select fraction_text p w H).
  destruct (exists_last H) as (front & b & Hb).
  destruct (response p) as [|a back] eqn:E; [contradiction|].
  exists a, b, front, back.
  split; [reflexivity|]. split; [exact Hb|]. split; [reflexivity|].
  split; [reflexivity|]. split; [reflexivity|].
  rewrite Hb, length_app, nth_error_app2 by (simpl; lia).
  replace (Nat.pred (List.length front + List.length [b])
           - List.length front)%nat with 0%nat by (simpl; lia).
  reflexivity.
Qed.

End Further.

(** ** The further properties at concrete inputs *)

Section FurtherInstances.

Local Open Scope string_scope.

Local Abbreviation src := (@scripted nat string).
Local Abbreviation Src := (Script nat string).

Lemma page_is_prefix_of_answer_witness :
  let p := example_page 2 1 in
  let w := fresh_world [inr [7; 8; 9]%nat] in
  exists (p' : Paginator nat) (dropped : list nat),
    executeQuery src no_fraction p w
    = (Return (response p'), p',
       record_call w [] (generatePaginationSqlSnippet no_fraction p) [])
    /\ [7; 8; 9]%nat = (response p' ++ dropped)%list
    /\ (List.length dropped <= 1)%nat
    /\ (hasNext p' = false -> dropped = [])
    /\ (hasNext p' = true -> [7; 8; 9]%nat <> [] ->
        List.length dropped = 1%nat).
Proof.
  intros p w.
  exact (@page_is_prefix_of_answer nat Src string src no_fraction
           p w [] [7; 8; 9]%nat eq_refl).
Defined.

Lemma overfetch_decides_next_page_witness :
  let p := example_page 2 1 in
  let w := fresh_world [inr [7; 8; 9; 10]%nat] in
  nextPage src no_fraction p w
  = (Return (VNum (add (int 1) (int 1))),
     with_cache p true [7; 8; 9]%nat,
     record_call w [] (generatePaginationSqlSnippet no_fraction p) []).
Proof.
  intros p w.
  destruct (@overfetch_decides_next_page nat Src string src no_fraction
              p w [] [7; 8; 9; 10]%nat eq_refl eq_refl) as [H _].
  destruct (H (ofZ 2) eq_refl) as (Hn & _ & _).
  - apply ofZ_lt. simpl. lia.
  - exact Hn.
Defined.

Lemma first_and_last_item_of_fetch_witness :
  let p := example_page 2 1 in
  let w := fresh_world [inr [7; 8; 9]%nat] in
  let w1 := record_call w [] (generatePaginationSqlSnippet no_fraction p) [] in
  firstItem src no_fraction p w
  = (Return (Some 7%nat), fetched p [7; 8; 9]%nat, w1)
  /\ lastItem src no_fraction p w
     = (Return (Some 8%nat), fetched p [7; 8; 9]%nat, w1).
Proof.
  intros p w w1.
  assert (H1 : (1 <= ofZ 2)%Qc) by (rewrite <- ofZ_1; apply ofZ_le; lia).
  destruct (@first_and_last_item_of_fetch nat Src string src no_fraction
              p w [] [7; 8; 9]%nat (ofZ 2) eq_refl eq_refl eq_refl H1)
    as (Hf & _ & Hl).
  split; [exact Hf|].
  destruct Hl as [Hl _]; [apply ofZ_lt; simpl; lia | exact Hl].
Defined.

Lemma constructed_instance_witness :
  (truthy (VNum (currentPage (example_page 10 1))) = true
   /\ (VNum (int 0) = VNum (currentPage (example_page 10 1))
       \/ (currentPage (example_page 10 1) = int 1
           /\ truthy (VNum (int 0)) = false)))
  /\ (let p := {| sqlProp := "SELECT id FROM t";
                  sqlParamsProp := [];
                  perPageProp := int 10;
                  currentPageProp := Inf false;
                  hasNext := false;
                  response := @nil nat |} in
      truthy (VNum (currentPage p)) = true
      /\ (VNum (Inf false) = VNum (currentPage p)
          \/ (currentPage p = int 1
              /\ truthy (VNum (Inf false)) = false))).
Proof.
  split.
  - assert (E : constructor nat "SELECT id FROM t" []
                            (VNum (int 10)) (VNum (int 0))
                = inr (example_page 10 1)) by reflexivity.
    destruct (@constructed_instance nat "SELECT id FROM t" []
                (VNum (int 10)) (VNum (int 0)) (example_page 10 1) E)
      as (_ & _ & _ & H).
    exact H.
  - intro p.
    assert (E : constructor nat "SELECT id FROM t" []
                            (VNum (int 10)) (VNum (Inf false))
                = inr p) by reflexivity.
    destruct (@constructed_instance nat "SELECT id FROM t" []
                (VNum (int 10)) (VNum (Inf false)) p E)
      as (_ & _ & _ & H).
    exact H.
Defined.

Lemma next_page_window_follows_witness :
  exists p' : Paginator nat,
    constructor nat "SELECT id FROM t" []
                (VNum (perPage (example_page 10 2)))
                (VNum (add (currentPage (example_page 10 2)) (int 1)))
    = inr p'
    /\ currentPage p' = int (2 + 1)
    /\ limit (getLimitAndOffsetByPageAndContentPerPage p')
       = limit (getLimitAndOffsetByPageAndContentPerPage (example_page 10 2))
    /\ offset (getLimitAndOffsetByPageAndContentPerPage p')
       = add (offset (getLimitAndOffsetByPageAndContentPerPage
                        (example_page 10 2)))
             (limit (getLimitAndOffsetByPageAndContentPerPage
                       (example_page 10 2)))
    /\ offset (getLimitAndOffsetByPageAndContentPerPage p') = int (2 * 10).
Proof.
  apply (@next_page_window_follows nat (example_page 10 2)
           2 10 "SELECT id FROM t" [] eq_refl eq_refl); lia.
Defined.

Lemma navigation_round_trip_witness :
  (exists p' : Paginator nat,
      constructor nat "SELECT id FROM t" [] (VNum (int 10))
                  (VNum (add (currentPage (example_page 10 2)) (int 1)))
      = inr p'
      /\ previousPage p' = VNum (currentPage (example_page 10 2)))
  /\ (exists p' : Paginator nat,
         constructor nat "SELECT id FROM t" [] (VNum (int 10))
                     (previousPage (example_page 10 2)) = inr p'
         /\ add (currentPage p') (int 1) = currentPage (example_page 10 2)).
Proof.
  assert (H1 : (1 <= 2)%Z) by lia.
  assert (Hb : (2 < 2 ^ 53)%Z) by lia.
  assert (H2 : (1 < 2)%Z) by lia.
  destruct (@navigation_round_trip nat (example_page 10 2) 2
              "SELECT id FROM t" [] (int 10) eq_refl H1 Hb) as [A B].
  split; [exact A | exact (B H2)].
Defined.

Lemma every_execution_sends_the_same_query_witness :
  exists n : nat,
    calls (snd (call_all src no_fraction [Count; ToObject; LastItem]
                         (example_page 10 1) (fresh_world [inr []])))
    = repeat (generatePaginationSqlSnippet no_fraction (example_page 10 1),
              []) n.
Proof.
  pose proof (@every_execution_sends_the_same_query nat Src string src
                no_fraction (example_page 10 1)
                [Count; ToObject; LastItem] (fresh_world [inr []])) as H.
  destruct (call_all src no_fraction [Count; ToObject; LastItem]
                     (example_page 10 1) (fresh_world [inr []]))
    as [[o p'] w'] eqn:E.
  destruct (H o p' w' eq_refl) as (_ & _ & _ & _ & _ & n & Hn).
  exists n. exact Hn.
Defined.

Lemma summary_of_empty_page_executes_four_times_witness :
  let p := example_page 10 1 in
  let w := {| db := 5%nat; calls := [] |} in
  exists d' : nat,
    toObject (capped 0) no_fraction p w
    = (Return {| Summary.count := 0;
                 Summary.previous_page := previousPage p;
                 Summary.current_page := currentPage p;
                 Summary.next_page := VBool false;
                 Summary.per_page := perPage p;
                 Summary.items := [] |},
       with_cache p false [],
       {| db := d';
          calls :=
            (calls w
               ++ repeat (generatePaginationSqlSnippet no_fraction p,
                          sqlParamsProp p) 4)%list |}).
Proof.
  intros p w.
  assert (H0 : (0 <= ofZ 10)%Qc) by (rewrite <- ofZ_0; apply ofZ_le; lia).
  apply (@summary_of_empty_page_executes_four_times nat nat string
           (capped 0) no_fraction p w (ofZ 10) eq_refl eq_refl H0).
  intro d. unfold capped. cbn [snd]. rewrite Nat.min_0_r. reflexivity.
Defined.

Lemma windows_do_not_overlap_witness :
  exists a b : Z,
    offset (getLimitAndOffsetByPageAndContentPerPage (example_page 10 1))
    = int a
    /\ offset (getLimitAndOffsetByPageAndContentPerPage (example_page 10 3))
       = int b
    /\ add (offset (getLimitAndOffsetByPageAndContentPerPage
                      (example_page 10 1)))
           (limit (getLimitAndOffsetByPageAndContentPerPage
                     (example_page 10 1)))
       = int (a + 10)
    /\ (0 <= a)%Z
    /\ (a + 10 <= b)%Z.
Proof.
  apply (@windows_do_not_overlap nat (example_page 10 1) (example_page 10 3)
           10 1 3 eq_refl eq_refl eq_refl eq_refl); lia.
Defined.

Lemma accessors_agree_on_cached_page_witness :
  let p := with_cache (example_page 10 1) false [7; 8]%nat in
  let w := fresh_world [] in
  exists (a b : nat) (front back : list nat),
    response p = a :: back
    /\ response p = (front ++ [b])%list
    /\ items src no_fraction p w = (Return (response p), p, w)
    /\ count src no_fraction p w = (Return (S (List.length back)), p, w)
    /\ firstItem src no_fraction p w = (Return (Some a), p, w)
    /\ lastItem src no_fraction p w = (Return (Some b), p, w).
Proof.
  intros p w.
  apply (@accessors_agree_on_cached_page nat Src string src no_fraction p w).
  discriminate.
Defined.

End FurtherInstances.
